(** * Route protection of the Nuxt/Directus module

    A shallow embedding of
      - [src/runtime/directus.ts]                    (plugin: session state, [checkAuthStatus]),
      - [src/runtime/composables/useDirectusAuth.ts] (the authentication composable),
      - [src/runtime/middleware/directus-auth.ts]    (the global route middleware),
      - the realtime composable [useDirectusRealtime] (the subscription registry),
    with the properties of the route guard, the role pipeline, the redirect
    cookie, the account requests and the registry stated and proved over it.

    JavaScript effects are threaded through one explicit [World]; a call
    either completes normally or throws, and a thrown error keeps the
    writes made before it, as in JavaScript. *)

From stdpp Require Import base option list strings gmap.

Open Scope string_scope.

(** ** JavaScript values and idioms *)

(** The values a role field or a role transform can hold, following the
    declared types ([role?: string], [transform?: (fieldValue, user) =>
    string | string[]]): [undefined], [null], a string, or an array of
    strings. *)
Inductive JsValue : Type :=
  | JsUndefined
  | JsNull
  | JsString (s : string)
  | JsArray (l : list string).

(** A thrown error, with its [message]. *)
Record JsError : Type := { message : string }.

(** How a call ends: it returns a value or it throws. *)
Inductive Completion (A : Type) : Type :=
  | Normal (a : A)
  | Throw (e : JsError).
Arguments Normal {A} a.
Arguments Throw {A} e.

(** Truthiness of a string: only the empty string is falsy. *)
Definition truthy (s : string) : bool :=
  match s with
  | EmptyString => false
  | String _ _ => true
  end.

(** [s || d] on strings. *)
Definition str_or (s d : string) : string := if truthy s then s else d.

(** [o || d] where [o] is an optional string property ([undefined] when absent). *)
Definition opt_or (o : option string) (d : string) : string :=
  match o with
  | Some s => str_or s d
  | None => d
  end.

(** Truthiness of an optional boolean property. *)
Definition opt_true (o : option bool) : bool :=
  match o with
  | Some b => b
  | None => false
  end.

(** [s.startsWith(p)]. *)
Definition startsWith (s p : string) : bool := String.prefix p s.

(** [l.includes(x)] on an array of strings. *)
Definition includes (l : list string) (x : string) : bool := existsb (String.eqb x) l.

(** ** Users and configuration *)

(** [DirectusUser]: a record with an index signature [[key: string]: any]. *)
Abbreviation DirectusUser := (gmap string JsValue).

(** [user[key]]: a missing property reads as [undefined]. *)
Definition user_get (u : DirectusUser) (key : string) : JsValue :=
  default JsUndefined (u !! key).

(** [DirectusPermissionsConfig] of [src/module.ts]. The [mapping] is a
    [Record<string, string>], kept as the finite map of its own entries; what
    a lookup finds beyond them is told by [mapping_get]. *)
Record DirectusPermissionsConfig : Type := {
  enabled : bool;
  field : string;
  mapping : option (gmap string string);
  transform : option (JsValue → DirectusUser → Completion JsValue);
}.

(** [DirectusAuthConfig] of [src/module.ts] (the two mail URLs play no part here). *)
Record DirectusAuthConfig : Type := {
  loginPath : string;
  registerPath : string;
  afterLoginPath : string;
  afterLogoutPath : string;
  permissions : option DirectusPermissionsConfig;
}.

(** [config.public.directus]. *)
Record DirectusPublicConfig : Type := {
  enableGlobalMiddleware : option bool;
  auth : option DirectusAuthConfig;
}.

(** [useRuntimeConfig()], as far as the guard reads it: [config.public.directus]
    may be missing altogether. *)
Record RuntimeConfig : Type := {
  directus : option DirectusPublicConfig;
}.

(** [config.public.directus?.auth]. *)
Definition config_auth (config : RuntimeConfig) : option DirectusAuthConfig :=
  directus config ≫= auth.

(** [config.public.directus?.auth?.permissions]. *)
Definition config_permissions (config : RuntimeConfig) : option DirectusPermissionsConfig :=
  config_auth config ≫= permissions.

(** The defaults of [defineNuxtModule] in [src/module.ts]. *)
Definition module_defaults : RuntimeConfig :=
  {| directus := Some
       {| enableGlobalMiddleware := Some true;
          auth := Some
            {| loginPath := "/auth/login";
               registerPath := "/auth/register";
               afterLoginPath := "/";
               afterLogoutPath := "/auth/login";
               permissions := Some
                 {| enabled := false; field := "role";
                    mapping := None; transform := None |} |} |} |}.

(** ** Routes *)

(** The object form of [PageMetaAuth.auth]. *)
Record AuthMeta : Type := {
  unauthenticatedOnly : option bool;
  navigateAuthenticatedTo : option string;
  navigateUnauthenticatedTo : option string;
  roles : option (list string);
  excludeRoles : option (list string);
  unauthorizedRedirect : option string;
}.

(** The object [{}] the middleware uses for [auth: true]. *)
Definition empty_meta : AuthMeta :=
  {| unauthenticatedOnly := None;
     navigateAuthenticatedTo := None;
     navigateUnauthenticatedTo := None;
     roles := None;
     excludeRoles := None;
     unauthorizedRedirect := None |}.

(** [to.meta?.auth]: absent ([undefined] or [null], which the middleware
    treats alike), a boolean, or an object. *)
Inductive AuthMetaRaw : Type :=
  | AuthUndefined
  | AuthBool (b : bool)
  | AuthObject (o : AuthMeta).

(** A route location: [path] is the path alone, [fullPath] carries query and hash. *)
Record Route : Type := {
  path : string;
  fullPath : string;
  meta_auth : AuthMetaRaw;
}.

(** What the middleware hands back to the router: [return] (proceed) or
    [return navigateTo(p)]. *)
Inductive Outcome : Type :=
  | Allow
  | Redirect (p : string).

(** ** The world the runtime code reads and writes

    One navigation, or one call of a composable, runs to completion on a
    single thread; the world is what it finds and what it leaves. *)

Record World : Type := {
  (** [useState("directus-authenticated")] *)
  isAuthenticatedState : bool;
  (** [useState("directus-user")] *)
  currentUser : option DirectusUser;
  (** [useState("directus-ws-connected")] *)
  isWebSocketConnected : bool;
  (** number of [directusClient.connect()] calls made so far *)
  wsConnects : nat;
  (** the cookie ["directus-auth-redirect"]; it reads as the empty string when
      unset (its default) or expired (the cookie layer enforces [maxAge]) *)
  redirectCookie : string;
  (** the composable's [isLoading] and [error] refs *)
  isLoading : bool;
  error : option string;
  (** the lines written with [console.error], oldest first *)
  consoleErrors : list string;
  (** the targets of the [navigateTo] calls awaited for their effect, oldest first *)
  navigated : list string;
}.

Definition set_isAuthenticatedState (b : bool) (w : World) : World :=
  {| isAuthenticatedState := b; currentUser := currentUser w;
     isWebSocketConnected := isWebSocketConnected w; wsConnects := wsConnects w;
     redirectCookie := redirectCookie w; isLoading := isLoading w; error := error w;
     consoleErrors := consoleErrors w; navigated := navigated w |}.

Definition set_currentUser (u : option DirectusUser) (w : World) : World :=
  {| isAuthenticatedState := isAuthenticatedState w; currentUser := u;
     isWebSocketConnected := isWebSocketConnected w; wsConnects := wsConnects w;
     redirectCookie := redirectCookie w; isLoading := isLoading w; error := error w;
     consoleErrors := consoleErrors w; navigated := navigated w |}.

Definition set_wsConnects (n : nat) (w : World) : World :=
  {| isAuthenticatedState := isAuthenticatedState w; currentUser := currentUser w;
     isWebSocketConnected := isWebSocketConnected w; wsConnects := n;
     redirectCookie := redirectCookie w; isLoading := isLoading w; error := error w;
     consoleErrors := consoleErrors w; navigated := navigated w |}.

Definition set_redirectCookie (c : string) (w : World) : World :=
  {| isAuthenticatedState := isAuthenticatedState w; currentUser := currentUser w;
     isWebSocketConnected := isWebSocketConnected w; wsConnects := wsConnects w;
     redirectCookie := c; isLoading := isLoading w; error := error w;
     consoleErrors := consoleErrors w; navigated := navigated w |}.

Definition set_isLoading (b : bool) (w : World) : World :=
  {| isAuthenticatedState := isAuthenticatedState w; currentUser := currentUser w;
     isWebSocketConnected := isWebSocketConnected w; wsConnects := wsConnects w;
     redirectCookie := redirectCookie w; isLoading := b; error := error w;
     consoleErrors := consoleErrors w; navigated := navigated w |}.

Definition set_error (e : option string) (w : World) : World :=
  {| isAuthenticatedState := isAuthenticatedState w; currentUser := currentUser w;
     isWebSocketConnected := isWebSocketConnected w; wsConnects := wsConnects w;
     redirectCookie := redirectCookie w; isLoading := isLoading w; error := e;
     consoleErrors := consoleErrors w; navigated := navigated w |}.

Definition add_consoleError (line : string) (w : World) : World :=
  {| isAuthenticatedState := isAuthenticatedState w; currentUser := currentUser w;
     isWebSocketConnected := isWebSocketConnected w; wsConnects := wsConnects w;
     redirectCookie := redirectCookie w; isLoading := isLoading w; error := error w;
     consoleErrors := consoleErrors w ++ [line]; navigated := navigated w |}.

Definition add_navigated (p : string) (w : World) : World :=
  {| isAuthenticatedState := isAuthenticatedState w; currentUser := currentUser w;
     isWebSocketConnected := isWebSocketConnected w; wsConnects := wsConnects w;
     redirectCookie := redirectCookie w; isLoading := isLoading w; error := error w;
     consoleErrors := consoleErrors w; navigated := navigated w ++ [p] |}.

(** A fresh world: nobody signed in, no cookie, nothing logged. *)
Definition initial_world : World :=
  {| isAuthenticatedState := false; currentUser := None;
     isWebSocketConnected := false; wsConnects := 0;
     redirectCookie := ""; isLoading := false; error := None;
     consoleErrors := []; navigated := [] |}.

(** ** Computations: state passing with exceptions *)

Definition M (A : Type) : Type := World → Completion A * World.

#[global] Instance M_ret : MRet M := λ A a w, (Normal a, w).

#[global] Instance M_bind : MBind M := λ A B f m w,
  match m w with
  | (Normal a, w') => f a w'
  | (Throw e, w') => (Throw e, w')
  end.

(** [throw e]. *)
Definition throw {A : Type} (e : JsError) : M A := λ w, (Throw e, w).

(** Lift the outcome of an external call. *)
Definition await {A : Type} (c : Completion A) : M A := λ w, (c, w).

(** [try { body } catch (e) { handler e }]: the handler starts from the world
    the body left behind. *)
Definition try_catch {A : Type} (body : M A) (handler : JsError → M A) : M A := λ w,
  match body w with
  | (Normal a, w') => (Normal a, w')
  | (Throw e, w') => handler e w'
  end.

(** [try { body } finally { fin }], for a [fin] that does not throw. *)
Definition try_finally {A : Type} (body : M A) (fin : World → World) : M A := λ w,
  match body w with
  | (c, w') => (c, fin w')
  end.

(** Read the world. *)
Definition gets {A : Type} (f : World → A) : M A := λ w, (Normal (f w), w).

(** Write the world. *)
Definition modify (f : World → World) : M unit := λ w, (Normal tt, f w).

(** [console.error(line, ...)]. *)
Definition console_error (line : string) : M unit := modify (add_consoleError line).

(** ** [src/runtime/directus.ts]: the plugin *)

(** What the Directus SDK answers, and where the code runs. *)
Record Backend : Type := {
  (** [directusClient.request(readMe())] *)
  request_readMe : Completion DirectusUser;
  (** [client.login(loginData, { mode: "cookie" })], by e-mail, password and OTP *)
  client_login : string → string → option string → Completion unit;
  (** [import.meta.client] *)
  import_meta_client : bool;
}.

(** What [checkAuthStatus] returns: the user record, or [false]. *)
Inductive CheckResult : Type :=
  | ReturnedMe (me : DirectusUser)
  | ReturnedFalse.

(** [initializeWebSocket]: on the client it calls [connect()] and registers the
    socket handlers, which run later; a failure is caught and logged inside. *)
Definition initializeWebSocket (backend : Backend) : M unit :=
  if negb (import_meta_client backend) then mret tt
  else modify (λ w, set_wsConnects (S (wsConnects w)) w).

(** [checkAuthStatus]. *)
Definition checkAuthStatus (backend : Backend) : M CheckResult :=
  try_catch
    (me ← await (request_readMe backend);
     modify (set_isAuthenticatedState true);;
     modify (set_currentUser (Some me));;
     connected ← gets isWebSocketConnected;
     (if negb connected then initializeWebSocket backend else mret tt);;
     mret (ReturnedMe me))
    (λ _,
     modify (set_isAuthenticatedState false);;
     modify (set_currentUser None);;
     mret ReturnedFalse).

(** [$directusAuth], as the composable and the middleware get it from
    [useNuxtApp()]: its state lives in the [World], its method is injected. *)
Record DirectusAuthPlugin : Type := {
  plugin_checkAuthStatus : M CheckResult;
}.

(** The [provide.directusAuth] of the plugin. *)
Definition directusAuth (backend : Backend) : DirectusAuthPlugin :=
  {| plugin_checkAuthStatus := checkAuthStatus backend |}.

(** ** The role pipeline

    [userRoles] of the composable and the role block of the middleware run
    the same three steps, written out twice in the source; only the tag of
    the logged line differs. *)

(** The transform step: [try { v = transform(v, user) } catch (e) { console.error(..) }];
    when the transform throws, the value stays what it was. *)
Definition apply_transform (tag : string) (pc : DirectusPermissionsConfig)
    (roleValue : JsValue) (user : DirectusUser) : M JsValue :=
  match transform pc with
  | Some f =>
      try_catch (await (f roleValue user))
        (λ _, console_error (tag ++ " Error in transform function:");; mret roleValue)
  | None => mret roleValue
  end.

(** The normalisation step: [Array.isArray(v) ? v : v != null ? [v] : []]. *)
Definition normalize_roles (roleValue : JsValue) : list string :=
  match roleValue with
  | JsArray l => l
  | JsString s => [s]
  | JsNull | JsUndefined => []
  end.

(** The names every plain object answers to without an entry of its own: the
    properties of [Object.prototype] (ECMAScript, with its Annex B). Reading
    one of them yields the inherited function (for [__proto__], the prototype
    object), never [undefined]. *)
Definition object_prototype_properties : list string :=
  ["constructor"; "hasOwnProperty"; "isPrototypeOf"; "propertyIsEnumerable";
   "toLocaleString"; "toString"; "valueOf"; "__proto__";
   "__defineGetter__"; "__defineSetter__"; "__lookupGetter__"; "__lookupSetter__"].

(** What an element of the resolved roles holds at run time. The declared
    type is [string]; the mapping step is the one place that can put
    something else there: the value of an inherited property, a function or
    an object, which is truthy and equal to no string. *)
Inductive RoleValue : Type :=
  | RoleName (name : string)
  | Inherited (property : string).

(** Truthiness of a resolved role. *)
Definition role_truthy (r : RoleValue) : bool :=
  match r with
  | RoleName s => truthy s
  | Inherited _ => true
  end.

(** [mapping[key]] on the plain object whose own entries are [m]: the own
    entry when there is one, else the inherited property when [key] names
    one, else [undefined]. *)
Definition mapping_get (m : gmap string string) (key : string) : option RoleValue :=
  match m !! key with
  | Some v => Some (RoleName v)
  | None => if includes object_prototype_properties key then Some (Inherited key) else None
  end.

(** [v || role], where [v] is what [mapping[role]] gave. *)
Definition role_or (v : option RoleValue) (role : string) : RoleValue :=
  match v with
  | Some (RoleName s) => RoleName (str_or s role)
  | Some (Inherited p) => Inherited p
  | None => RoleName role
  end.

(** The mapping step: [roles.map((role) => mapping[role] || role)] when a
    mapping is configured. *)
Definition apply_mapping (mp : option (gmap string string)) (roles : list string)
    : list RoleValue :=
  match mp with
  | Some m => map (λ role, role_or (mapping_get m role) role) roles
  | None => map RoleName roles
  end.

(** [roles.includes(x)] on the resolved roles, for a string [x]. *)
Definition roles_include (l : list RoleValue) (x : string) : bool :=
  existsb (λ r, match r with
                | RoleName s => String.eqb x s
                | Inherited _ => false
                end) l.

(** [l.includes(role)] on an array of strings, for a resolved role. *)
Definition includes_role (l : list string) (role : RoleValue) : bool :=
  match role with
  | RoleName s => includes l s
  | Inherited _ => false
  end.

(** The raw value of the role field: [user[field || "role"]]. *)
Definition raw_role (pc : DirectusPermissionsConfig) (u : DirectusUser) : JsValue :=
  user_get u (str_or (field pc) "role").

(** The three steps in a row, from the user record to the role names:
    read the raw value, transform, normalise, map. *)
Definition resolve_roles (tag : string) (pc : DirectusPermissionsConfig)
    (user : DirectusUser) : M (list RoleValue) :=
  roleValue ← apply_transform tag pc (raw_role pc user) user;
  mret (apply_mapping (mapping pc) (normalize_roles roleValue)).

(** ** [src/runtime/composables/useDirectusAuth.ts] *)

(** [userRoles]. *)
Definition userRoles (config : RuntimeConfig) : M (list RoleValue) :=
  user ← gets currentUser;
  match user with
  | None => mret []
  | Some u =>
      match config_permissions config with
      | None => mret []
      | Some pc =>
          if negb (enabled pc) then mret []
          else resolve_roles "[useDirectusAuth]" pc u
      end
  end.

(** [userRole]: [userRoles.value[0] || null]. *)
Definition userRole (config : RuntimeConfig) : M (option RoleValue) :=
  rs ← userRoles config;
  mret (match rs with
        | r :: _ => if role_truthy r then Some r else None
        | [] => None
        end).

(** [LoginCredentials]. *)
Record LoginCredentials : Type := {
  email : string;
  password : string;
  otp : option string;
}.

(** [await navigateTo(p)], called for its effect. *)
Definition navigateTo (p : string) : M unit := modify (add_navigated p).

(** The [otp] that goes into [loginData]: only a truthy one is passed on. *)
Definition login_otp (credentials : LoginCredentials) : option string :=
  match otp credentials with
  | Some o => if truthy o then Some o else None
  | None => None
  end.

(** [login]. *)
Definition login (config : RuntimeConfig) (backend : Backend) (plugin : DirectusAuthPlugin)
    (credentials : LoginCredentials) : M (option DirectusUser) :=
  modify (set_isLoading true);;
  modify (set_error None);;
  try_finally
    (try_catch
       (await (client_login backend (email credentials) (password credentials)
                 (login_otp credentials));;
        plugin_checkAuthStatus plugin;;
        connected ← gets isWebSocketConnected;
        (if negb connected then initializeWebSocket backend else mret tt);;
        cookie ← gets redirectCookie;
        let after_login := opt_or (afterLoginPath <$> config_auth config) "/" in
        let redirectTo := str_or cookie after_login in
        modify (set_redirectCookie "");;
        navigateTo redirectTo;;
        gets currentUser)
       (λ e,
        modify (set_error (Some (str_or (message e) "Login failed")));;
        throw e))
    (set_isLoading false).

(** ** [src/runtime/middleware/directus-auth.ts] *)

(** [loginPath], [registerPath] and [afterLoginPath] as the middleware
    destructures them, with its fallback object when [auth] is missing. *)
Definition auth_paths (config : RuntimeConfig) : string * string * string :=
  match config_auth config with
  | Some a => (loginPath a, registerPath a, afterLoginPath a)
  | None => ("/login", "/register", "/")
  end.

(** The three of them, one by one. *)
Definition login_path (config : RuntimeConfig) : string := (auth_paths config).1.1.

Definition register_path (config : RuntimeConfig) : string := (auth_paths config).1.2.

Definition after_login_path (config : RuntimeConfig) : string := (auth_paths config).2.

(** [config.public.directus?.enableGlobalMiddleware ?? true]. *)
Definition global_middleware (config : RuntimeConfig) : bool :=
  default true (directus config ≫= enableGlobalMiddleware).

(** The four formats of [to.meta?.auth]: the pair [(requiresAuth, authMeta)]. *)
Definition resolve_auth_meta (config : RuntimeConfig) (authMetaRaw : AuthMetaRaw)
    : bool * option AuthMeta :=
  match authMetaRaw with
  | AuthBool false => (false, None)
  | AuthBool true => (true, Some empty_meta)
  | AuthObject o => (true, Some o)
  | AuthUndefined => (global_middleware config, None)
  end.

(** [p.startsWith(loginPath) || p.startsWith(registerPath)]: an auth page. *)
Definition is_auth_page (config : RuntimeConfig) (p : string) : bool :=
  let '(loginPath', registerPath', _) := auth_paths config in
  startsWith p loginPath' || startsWith p registerPath'.

(** An array property that is present and not empty: [a && a.length > 0]. *)
Definition nonempty_array (o : option (list string)) : bool :=
  match o with
  | Some (_ :: _) => true
  | _ => false
  end.

(** The redirect target of a failed role check: [unauthorizedRedirect || "/"]. *)
Definition unauthorized_target (authMeta : option AuthMeta) : string :=
  opt_or (authMeta ≫= unauthorizedRedirect) "/".

(** The tag of the lines the middleware logs. *)
Definition guard_tag : string := "[directus-auth middleware]".

(** The role block of the middleware, entered for an authenticated user on a
    route that is not unauthenticated-only. It falls through to the final
    [return] (Allow) whenever no check redirects. *)
Definition role_checks (config : RuntimeConfig) (authMeta : option AuthMeta) : M Outcome :=
  match config_permissions config with
  | None => mret Allow
  | Some pc =>
      if enabled pc && (bool_decide (is_Some (authMeta ≫= roles))
                        || bool_decide (is_Some (authMeta ≫= excludeRoles)))
      then
        user ← gets currentUser;
        match user with
        | None => mret Allow
        | Some u =>
            userRoles ← resolve_roles guard_tag pc u;
            if nonempty_array (authMeta ≫= roles)
               && negb (existsb (λ requiredRole, roles_include userRoles requiredRole)
                          (default [] (authMeta ≫= roles)))
            then mret (Redirect (unauthorized_target authMeta))
            else if nonempty_array (authMeta ≫= excludeRoles)
                    && existsb (λ role, includes_role (default [] (authMeta ≫= excludeRoles)) role)
                         userRoles
            then mret (Redirect (unauthorized_target authMeta))
            else mret Allow
        end
      else mret Allow
  end.

(** The [try] block from [const authenticated = isAuthenticated.value] on. *)
Definition decide_access (config : RuntimeConfig)
    (authMeta : option AuthMeta) (to from : Route) : M Outcome :=
  let '(loginPath', registerPath', afterLoginPath') := auth_paths config in
  authenticated ← gets isAuthenticatedState;
  if negb authenticated then
    if opt_true (authMeta ≫= unauthenticatedOnly) then mret Allow
    else
      (if negb (startsWith (path to) loginPath') && negb (startsWith (path to) registerPath')
       then modify (set_redirectCookie (fullPath to))
       else mret tt);;
      mret (Redirect (opt_or (authMeta ≫= navigateUnauthenticatedTo) loginPath'))
  else
    if opt_true (authMeta ≫= unauthenticatedOnly) then
      cookie ← gets redirectCookie;
      let redirectTo := opt_or (authMeta ≫= navigateAuthenticatedTo) afterLoginPath' in
      if truthy cookie
         && (startsWith (path from) loginPath' || startsWith (path from) registerPath')
      then modify (set_redirectCookie "");; mret (Redirect cookie)
      else mret (Redirect redirectTo)
    else role_checks config authMeta.

(** The body of the [try] block: the fresh session check, then the decision. *)
Definition guarded (config : RuntimeConfig) (plugin : DirectusAuthPlugin)
    (authMeta : option AuthMeta) (to from : Route) : M Outcome :=
  plugin_checkAuthStatus plugin;;
  decide_access config authMeta to from.

(** The line the [catch] block of the middleware logs. *)
Definition guard_error_line : string :=
  "[directus-auth middleware] Error checking authentication:".

(** The [catch] block. *)
Definition on_error (config : RuntimeConfig) (to : Route) (e : JsError) : M Outcome :=
  let '(loginPath', registerPath', _) := auth_paths config in
  console_error guard_error_line;;
  (if negb (startsWith (path to) loginPath') && negb (startsWith (path to) registerPath')
   then modify (set_redirectCookie (fullPath to))
   else mret tt);;
  mret (Redirect loginPath').

(** The route middleware (the default export). The [console.log] and
    [console.warn] lines under [import.meta.dev] do not bear on the outcome
    and are left out. *)
Definition middleware (config : RuntimeConfig) (plugin : DirectusAuthPlugin)
    (to from : Route) : M Outcome :=
  let '(loginPath', registerPath', _) := auth_paths config in
  let '(requiresAuth, authMeta) := resolve_auth_meta config (meta_auth to) in
  if existsb (λ p, startsWith (path to) p) [loginPath'; registerPath'] then mret Allow
  else if negb requiresAuth then mret Allow
  else try_catch (guarded config plugin authMeta to from) (on_error config to).

(** ** Derived notions and sample inputs *)

(** What one call of [checkAuthStatus] does to the world. *)
Definition after_check (backend : Backend) (w : World) : World :=
  match request_readMe backend with
  | Normal me =>
      let w1 := set_currentUser (Some me) (set_isAuthenticatedState true w) in
      if negb (isWebSocketConnected w1) && import_meta_client backend
      then set_wsConnects (S (wsConnects w1)) w1 else w1
  | Throw _ => set_currentUser None (set_isAuthenticatedState false w)
  end.

(** A mapping with the entries [1 ↦ admin] and [3 ↦ ""]. *)
Definition sample_mapping : gmap string string :=
  <["1" := "admin"]> (<["3" := ""]> ∅).

(** A transform that always throws. *)
Definition failing_transform (v : JsValue) (u : DirectusUser) : Completion JsValue :=
  Throw {| message := "boom" |}.

(** Permissions switched on, with the given mapping and transform. *)
Definition permissions_on (mp : option (gmap string string))
    (tr : option (JsValue → DirectusUser → Completion JsValue)) : DirectusPermissionsConfig :=
  {| enabled := true; field := "role"; mapping := mp; transform := tr |}.

(** The module defaults with the given permissions. *)
Definition config_with (pc : DirectusPermissionsConfig) : RuntimeConfig :=
  {| directus := Some
       {| enableGlobalMiddleware := Some true;
          auth := Some
            {| loginPath := "/auth/login";
               registerPath := "/auth/register";
               afterLoginPath := "/";
               afterLogoutPath := "/auth/login";
               permissions := Some pc |} |} |}.

(** A user whose [role] field holds the given value. *)
Definition user_with_role (v : JsValue) : DirectusUser :=
  <["role" := v]> (<["id" := JsString "u1"]> (<["email" := JsString "u1@example.org"]> ∅)).

(** A world in which the given user is signed in. *)
Definition signed_in (u : DirectusUser) : World :=
  set_currentUser (Some u) (set_isAuthenticatedState true initial_world).

(** [permissionsConfig?.enabled], as a condition. *)
Definition permissions_enabled (config : RuntimeConfig) : bool :=
  match config_permissions config with
  | Some pc => enabled pc
  | None => false
  end.

(** A page whose full path is its path. *)
Definition page (p : string) (m : AuthMetaRaw) : Route :=
  {| path := p; fullPath := p; meta_auth := m |}.

(** A backend that rejects every request. *)
Definition backend_rejecting : Backend :=
  {| request_readMe := Throw {| message := "401" |};
     client_login := λ _ _ _, Throw {| message := "Invalid user credentials." |};
     import_meta_client := true |}.

(** A backend on which the given user is signed in. *)
Definition backend_serving (u : DirectusUser) : Backend :=
  {| request_readMe := Normal u;
     client_login := λ _ _ _, Normal tt;
     import_meta_client := true |}.

(** [/dashboard?tab=2], declared with [auth: true]. *)
Definition dashboard : Route :=
  {| path := "/dashboard"; fullPath := "/dashboard?tab=2"; meta_auth := AuthBool true |}.

(** An object [{ unauthenticatedOnly: true }]. *)
Definition guests_only : AuthMeta :=
  {| unauthenticatedOnly := Some true;
     navigateAuthenticatedTo := None;
     navigateUnauthenticatedTo := None;
     roles := None;
     excludeRoles := None;
     unauthorizedRedirect := None |}.

(** A world in which the given user is signed in and a location is remembered. *)
Definition signed_in_remembering (u : DirectusUser) (c : string) : World :=
  set_redirectCookie c (signed_in u).

(** An object [{ roles: allowed, excludeRoles: denied }]. *)
Definition role_meta (allowed denied : option (list string)) : AuthMeta :=
  {| unauthenticatedOnly := None;
     navigateAuthenticatedTo := None;
     navigateUnauthenticatedTo := None;
     roles := allowed;
     excludeRoles := denied;
     unauthorizedRedirect := None |}.

(** The page [/admin], open to [admin] and closed to [admin] at once. *)
Definition admin_page : Route :=
  page "/admin" (AuthObject (role_meta (Some ["admin"]) (Some ["admin"]))).

(** An object [{ navigateUnauthenticatedTo: "/welcome" }]. *)
Definition welcome_first : AuthMeta :=
  {| unauthenticatedOnly := None;
     navigateAuthenticatedTo := None;
     navigateUnauthenticatedTo := Some "/welcome";
     roles := None;
     excludeRoles := None;
     unauthorizedRedirect := None |}.

(** A plugin whose session check throws. *)
Definition broken_plugin : DirectusAuthPlugin :=
  {| plugin_checkAuthStatus := throw {| message := "checkAuthStatus is not a function" |} |}.

(** ** The rest of [useDirectusAuth.ts] *)

(** The frame every request of the composable is wrapped in:
    [isLoading = true; error = null; try { body } catch (e) { error =
    e.message || fallback; throw e } finally { isLoading = false }]. It is
    written out in each function of the source, and in [login] above. *)
Definition with_loading {A : Type} (fallback : string) (body : M A) : M A :=
  modify (set_isLoading true);;
  modify (set_error None);;
  try_finally
    (try_catch body
       (λ e,
        modify (set_error (Some (str_or (message e) fallback)));;
        throw e))
    (set_isLoading false).

(** [RegisterData], as far as [register] reads it. *)
Record RegisterData : Type := {
  reg_email : string;
  reg_password : string;
  reg_first_name : option string;
  reg_last_name : option string;
}.

(** The requests the composable sends besides [readMe] and [login]; each
    either completes or throws. *)
Record DirectusSdk : Type := {
  (** [client.logout({ mode: "cookie", refresh_token })], or without the token *)
  client_logout : option string → Completion unit;
  (** [client.request(refresh({ mode: "cookie" }))] *)
  request_refresh : Completion unit;
  (** [registerUser(email, password, { first_name, last_name, verification_url })] *)
  request_registerUser : RegisterData → string → Completion unit;
  (** [registerUserVerify(token)] *)
  request_registerUserVerify : string → Completion unit;
  (** [passwordRequest(email, resetUrl)] *)
  request_passwordRequest : string → string → Completion unit;
  (** [passwordReset(token, password)] *)
  request_passwordReset : string → string → Completion unit;
  (** [updateMe({ password })] *)
  request_updateMe : string → Completion unit;
  (** [POST /users/me/tfa/generate] with the password: the secret and its URL *)
  request_tfa_generate : string → Completion (string * string);
  (** [POST /users/me/tfa/enable] with the secret and the OTP *)
  request_tfa_enable : string → string → Completion unit;
  (** [POST /users/me/tfa/disable] with the OTP *)
  request_tfa_disable : string → Completion unit;
}.

(** [register]: [verificationUrl] is the configured URL, [origin] stands for
    [window.location.origin]. *)
Definition register (sdk : DirectusSdk) (verificationUrl : option string) (origin : string)
    (data : RegisterData) : M bool :=
  with_loading "Registration failed"
    (let baseUrl := opt_or verificationUrl (origin ++ "/auth/verify-email") in
     await (request_registerUser sdk data baseUrl);;
     mret true).

(** [verifyEmail]. *)
Definition verifyEmail (sdk : DirectusSdk) (token : string) : M bool :=
  with_loading "Email verification failed"
    (await (request_registerUserVerify sdk token);;
     mret true).

(** [fetchUser]. *)
Definition fetchUser (plugin : DirectusAuthPlugin) : M (option DirectusUser) :=
  with_loading "Failed to fetch user"
    (plugin_checkAuthStatus plugin;;
     gets currentUser).

(** [requestPasswordReset]: [resetPasswordUrl] is the configured URL. *)
Definition requestPasswordReset (sdk : DirectusSdk) (resetPasswordUrl : option string)
    (origin : string) (mail : string) : M bool :=
  with_loading "Password reset request failed"
    (let resetUrl := opt_or resetPasswordUrl (origin ++ "/auth/reset-password") in
     await (request_passwordRequest sdk mail resetUrl);;
     mret true).

(** [resetPassword]. *)
Definition resetPassword (sdk : DirectusSdk) (token newPassword : string) : M bool :=
  with_loading "Password reset failed"
    (await (request_passwordReset sdk token newPassword);;
     mret true).

(** [refreshToken]. *)
Definition refreshToken (sdk : DirectusSdk) (plugin : DirectusAuthPlugin) : M bool :=
  with_loading "Token refresh failed"
    (await (request_refresh sdk);;
     plugin_checkAuthStatus plugin;;
     mret true).

(** [updatePassword]: the current password is not sent. *)
Definition updatePassword (sdk : DirectusSdk) (currentPassword newPassword : string) : M bool :=
  with_loading "Password update failed"
    (await (request_updateMe sdk newPassword);;
     mret true).

(** [generateTwoFactorSecret]. *)
Definition generateTwoFactorSecret (sdk : DirectusSdk) (pw : string) : M (string * string) :=
  with_loading "Failed to generate 2FA secret"
    (await (request_tfa_generate sdk pw)).

(** [enableTwoFactor]. *)
Definition enableTwoFactor (sdk : DirectusSdk) (plugin : DirectusAuthPlugin)
    (secret code : string) : M bool :=
  with_loading "Failed to enable 2FA"
    (await (request_tfa_enable sdk secret code);;
     plugin_checkAuthStatus plugin;;
     mret true).

(** [disableTwoFactor]. *)
Definition disableTwoFactor (sdk : DirectusSdk) (plugin : DirectusAuthPlugin)
    (code : string) : M bool :=
  with_loading "Failed to disable 2FA"
    (await (request_tfa_disable sdk code);;
     plugin_checkAuthStatus plugin;;
     mret true).

(** [userRoleRaw]. *)
Definition userRoleRaw (config : RuntimeConfig) : M JsValue :=
  user ← gets currentUser;
  match user with
  | None => mret JsNull
  | Some u => mret (user_get u (opt_or (field <$> config_permissions config) "role"))
  end.

(** [hasRole]: [userRoles.value.includes(role)]. *)
Definition hasRole (config : RuntimeConfig) (role : string) : M bool :=
  rs ← userRoles config;
  mret (roles_include rs role).

(** [hasAnyRole]: [roles.some((role) => userRoles.value.includes(role))]. The
    computed [userRoles] is read when the first element is visited (and is
    cached from then on), so an empty [roles] reads nothing. *)
Definition hasAnyRole (config : RuntimeConfig) (roles : list string) : M bool :=
  match roles with
  | [] => mret false
  | _ => rs ← userRoles config; mret (existsb (λ role, roles_include rs role) roles)
  end.

(** [hasAllRoles]: [roles.every((role) => userRoles.value.includes(role))]. *)
Definition hasAllRoles (config : RuntimeConfig) (roles : list string) : M bool :=
  match roles with
  | [] => mret true
  | _ => rs ← userRoles config; mret (forallb (λ role, roles_include rs role) roles)
  end.

(** [isNotRole]: [!roles.some((role) => userRoles.value.includes(role))]. *)
Definition isNotRole (config : RuntimeConfig) (roles : list string) : M bool :=
  match roles with
  | [] => mret true
  | _ => rs ← userRoles config; mret (negb (existsb (λ role, roles_include rs role) roles))
  end.

(** *** [logout] and the token cookies *)

(** The browser as [logout] sees it: the [World], and the two cookies of the
    SDK's cookie storage, [directus_refresh_token] and [directus-data]
    ([null] when unset). *)
Record Browser : Type := {
  world : World;
  directus_refresh_token : option string;
  directus_data : option string;
}.

Definition set_world (w : World) (b : Browser) : Browser :=
  {| world := w; directus_refresh_token := directus_refresh_token b;
     directus_data := directus_data b |}.

Definition set_directus_refresh_token (t : option string) (b : Browser) : Browser :=
  {| world := world b; directus_refresh_token := t; directus_data := directus_data b |}.

Definition set_directus_data (d : option string) (b : Browser) : Browser :=
  {| world := world b; directus_refresh_token := directus_refresh_token b;
     directus_data := d |}.

(** Computations over the [Browser]. *)
Definition MB (A : Type) : Type := Browser → Completion A * Browser.

#[global] Instance MB_ret : MRet MB := λ A a b, (Normal a, b).

#[global] Instance MB_bind : MBind MB := λ A B f m b,
  match m b with
  | (Normal a, b') => f a b'
  | (Throw e, b') => (Throw e, b')
  end.

(** Run a computation over the [World] inside the [Browser]. *)
Definition in_world {A : Type} (m : M A) : MB A := λ b,
  match m (world b) with
  | (c, w') => (c, set_world w' b)
  end.

(** [try]/[catch] and [finally] over the [Browser]. *)
Definition try_catchB {A : Type} (body : MB A) (handler : JsError → MB A) : MB A := λ b,
  match body b with
  | (Normal a, b') => (Normal a, b')
  | (Throw e, b') => handler e b'
  end.

Definition try_finallyB {A : Type} (body : MB A) (fin : Browser → Browser) : MB A := λ b,
  match body b with
  | (c, b') => (c, fin b')
  end.

(** Write a cookie. *)
Definition modifyB (f : Browser → Browser) : MB unit := λ b, (Normal tt, f b).

(** [getRefreshToken] of the plugin ([src/runtime/directus.ts]). *)
Definition getRefreshToken : MB (option string) := λ b, (Normal (directus_refresh_token b), b).

(** [config.public.directus?.auth?.afterLogoutPath || "/login"]. *)
Definition after_logout_path (config : RuntimeConfig) : string :=
  opt_or (afterLogoutPath <$> config_auth config) "/login".

(** What both branches of [logout] end with: clear the two cookies, check
    the session, go to the after-logout path. *)
Definition logout_cleanup (config : RuntimeConfig) (plugin : DirectusAuthPlugin) : MB unit :=
  modifyB (set_directus_refresh_token None);;
  modifyB (set_directus_data None);;
  in_world (plugin_checkAuthStatus plugin);;
  in_world (navigateTo (after_logout_path config)).

(** The token [logout] passes to the SDK: the cookie's value when it is truthy. *)
Definition logout_token (b : Browser) : option string :=
  match directus_refresh_token b with
  | Some t => if truthy t then Some t else None
  | None => None
  end.

(** [logout]. *)
Definition logout (config : RuntimeConfig) (sdk : DirectusSdk) (plugin : DirectusAuthPlugin)
    : MB unit :=
  in_world (modify (set_isLoading true));;
  in_world (modify (set_error None));;
  try_finallyB
    (try_catchB
       (refresh_token ← getRefreshToken;
        in_world (await (client_logout sdk
                           (match refresh_token with
                            | Some t => if truthy t then Some t else None
                            | None => None
                            end)));;
        logout_cleanup config plugin)
       (λ e,
        in_world (modify (set_error (Some (str_or (message e) "Logout failed"))));;
        logout_cleanup config plugin))
    (λ b, set_world (set_isLoading false (world b)) b).

(** ** The rest of [src/runtime/directus.ts] *)

(** [s.replace(/^http/, "ws")]. *)
Definition replace_http (s : string) : string :=
  if startsWith s "http" then "ws" ++ String.substring 4 (String.length s - 4) s else s.

(** The WebSocket URL of the plugin: [(directusWsUrl || directusUrl)
    .replace(/^http/, "ws") + "/websocket"]. *)
Definition wsUrl (directusWsUrl : option string) (directusUrl : string) : string :=
  replace_http (opt_or directusWsUrl directusUrl) ++ "/websocket".

(** The parts of the world a request without a session check cannot reach. *)
Definition same_session (w w' : World) : Prop :=
  isAuthenticatedState w' = isAuthenticatedState w ∧
  currentUser w' = currentUser w ∧
  redirectCookie w' = redirectCookie w ∧
  navigated w' = navigated w ∧
  consoleErrors w' = consoleErrors w.

(** How a request without a session check settles: the session, the redirect
    cookie, the navigation history and the console are as before, [isLoading]
    is false, and either the request completed, the call returns [ret] of its
    answer and [error] is [null], or the request threw, the call throws the
    same error and [error] holds its message, or [fallback] when it has none. *)
Definition request_settled {A B : Type} (fallback : string) (c : Completion A) (ret : A → B)
    (w : World) (r : Completion B * World) : Prop :=
  same_session w r.2 ∧
  isLoading r.2 = false ∧
  match c with
  | Normal a => r.1 = Normal (ret a) ∧ error r.2 = None
  | Throw e => r.1 = Throw e ∧ error r.2 = Some (str_or (message e) fallback)
  end.

(** How a request followed by a session check settles, with the plugin of
    [directus.ts]: when the request throws, the session is not checked and
    stays as it was; when it completes, the call returns [true] and the
    session is what the backend answers to the check. *)
Definition recheck_settled (fallback : string) (c : Completion unit) (backend : Backend)
    (w : World) (r : Completion bool * World) : Prop :=
  isLoading r.2 = false ∧
  redirectCookie r.2 = redirectCookie w ∧
  navigated r.2 = navigated w ∧
  match c with
  | Normal _ =>
      r.1 = Normal true ∧ error r.2 = None ∧
      match request_readMe backend with
      | Normal me => isAuthenticatedState r.2 = true ∧ currentUser r.2 = Some me
      | Throw _ => isAuthenticatedState r.2 = false ∧ currentUser r.2 = None
      end
  | Throw e =>
      r.1 = Throw e ∧ error r.2 = Some (str_or (message e) fallback) ∧
      isAuthenticatedState r.2 = isAuthenticatedState w ∧
      currentUser r.2 = currentUser w ∧
      wsConnects r.2 = wsConnects w
  end.

(** ** The realtime composable ([useDirectusRealtime])

    The module-wide registry of subscriptions is a JavaScript [Map], kept
    here as the list of its entries in insertion order, which is the order
    [forEach] and [values()] follow. Every call of [useDirectusRealtime()]
    has a [Set] of its own, [localSubscriptions]: a state is the registry as
    one component sees it, next to that component's set, and [elsewhere]
    runs an operation from another component on the same registry.
    [unsubscribe] and the bulk operations are synchronous. [subscribe] is
    not: it awaits the SDK between its check and its write, so [subscribe]
    below is a call that nothing interrupts, and [subscribe_register] is its
    write on its own, for a call that finds the registry changed. *)

(** [SubscriptionHandler]; calling its [unsubscribe] completes or throws,
    the same way each time. *)
Record SubscriptionHandler : Type := {
  uid : string;
  collection : string;
  handler_unsubscribe : Completion unit;
  persistent : bool;
}.

(** [SubscriptionOptions], without the query, which is only passed on. *)
Record SubscriptionOptions : Type := {
  opt_collection : string;
  opt_uid : option string;
  opt_persistent : option bool;
}.

(** [Map.prototype.get]. *)
Fixpoint registry_get (id : string) (m : list (string * SubscriptionHandler))
    : option SubscriptionHandler :=
  match m with
  | [] => None
  | (k, h) :: m' => if String.eqb k id then Some h else registry_get id m'
  end.

(** [Map.prototype.set]: a present key keeps its place, a new one goes last. *)
Fixpoint registry_set (id : string) (h : SubscriptionHandler)
    (m : list (string * SubscriptionHandler)) : list (string * SubscriptionHandler) :=
  match m with
  | [] => [(id, h)]
  | (k, v) :: m' => if String.eqb k id then (k, h) :: m' else (k, v) :: registry_set id h m'
  end.

(** [Map.prototype.delete]. *)
Definition registry_delete (id : string) (m : list (string * SubscriptionHandler))
    : list (string * SubscriptionHandler) :=
  filter (λ p, p.1 ≠ id) m.

(** [Set.prototype.add] and [Set.prototype.delete]. *)
Definition set_add (id : string) (l : list string) : list string :=
  if bool_decide (id ∈ l) then l else (l ++ [id])%list.

Definition set_delete (id : string) (l : list string) : list string :=
  filter (λ x, x ≠ id) l.

(** The state of the composable: the registry, the component's own set, and
    the lines written with [console.error]. *)
Record Realtime : Type := {
  subscriptions : list (string * SubscriptionHandler);
  localSubscriptions : list string;
  realtimeErrors : list string;
}.

(** Nothing subscribed yet. *)
Definition realtime_empty : Realtime :=
  {| subscriptions := []; localSubscriptions := []; realtimeErrors := [] |}.

(** [subscribe]. [client_subscribe] is the SDK's [client.subscribe(collection,
    { query, uid })], which answers with the [unsubscribe] function or
    throws; [generated] stands for the id made up with [Math.random()] when
    the options carry no [uid]. *)
Definition subscribe (client_subscribe : string → string → Completion (Completion unit))
    (generated : string) (options : SubscriptionOptions) (st : Realtime)
    : Completion SubscriptionHandler * Realtime :=
  let subscriptionId := opt_or (opt_uid options) generated in
  match registry_get subscriptionId (subscriptions st) with
  | Some existing => (Normal existing, st)
  | None =>
      match client_subscribe (opt_collection options) subscriptionId with
      | Normal unsub =>
          let handler :=
            {| uid := subscriptionId;
               collection := opt_collection options;
               handler_unsubscribe := unsub;
               persistent := default false (opt_persistent options) |} in
          (Normal handler,
           {| subscriptions := registry_set subscriptionId handler (subscriptions st);
              localSubscriptions :=
                if persistent handler then localSubscriptions st
                else set_add subscriptionId (localSubscriptions st);
              realtimeErrors := realtimeErrors st |})
      | Throw e =>
          (Throw e,
           {| subscriptions := subscriptions st;
              localSubscriptions := localSubscriptions st;
              realtimeErrors :=
                (realtimeErrors st
                 ++ [String.append "[Directus Realtime] Error subscribing to "
                       (String.append (opt_collection options) ":")])%list |})
      end
  end.

(** The end of [subscribe], from [const handler] on: what runs once
    [client.subscribe] has answered with [unsub]. It writes to the state of
    that moment, whatever the check at the start of the call had found. *)
Definition subscribe_register (subscriptionId : string) (options : SubscriptionOptions)
    (unsub : Completion unit) (st : Realtime) : SubscriptionHandler * Realtime :=
  let handler :=
    {| uid := subscriptionId;
       collection := opt_collection options;
       handler_unsubscribe := unsub;
       persistent := default false (opt_persistent options) |} in
  (handler,
   {| subscriptions := registry_set subscriptionId handler (subscriptions st);
      localSubscriptions :=
        if persistent handler then localSubscriptions st
        else set_add subscriptionId (localSubscriptions st);
      realtimeErrors := realtimeErrors st |}).

(** An operation called from another component, whose set is [theirs]: it
    works on the shared registry and on that set, and leaves the set of this
    component alone. The result is the state as seen from here, with their
    set afterwards. *)
Definition elsewhere (theirs : list string) (op : Realtime → Realtime) (st : Realtime)
    : Realtime * list string :=
  let st' := op {| subscriptions := subscriptions st;
                   localSubscriptions := theirs;
                   realtimeErrors := realtimeErrors st |} in
  ({| subscriptions := subscriptions st';
      localSubscriptions := localSubscriptions st;
      realtimeErrors := realtimeErrors st' |},
   localSubscriptions st').

(** [unsubscribe]: an unknown id only warns; a handler whose [unsubscribe]
    throws is logged and stays registered. *)
Definition unsubscribe (subscriptionId : string) (st : Realtime) : Realtime :=
  match registry_get subscriptionId (subscriptions st) with
  | None => st
  | Some handler =>
      match handler_unsubscribe handler with
      | Normal _ =>
          {| subscriptions := registry_delete subscriptionId (subscriptions st);
             localSubscriptions := set_delete subscriptionId (localSubscriptions st);
             realtimeErrors := realtimeErrors st |}
      | Throw _ =>
          {| subscriptions := subscriptions st;
             localSubscriptions := localSubscriptions st;
             realtimeErrors :=
               (realtimeErrors st
                ++ [String.append "[Directus Realtime] Error unsubscribing from "
                      (String.append subscriptionId ":")])%list |}
      end
  end.

(** [toRemove.forEach((id) => unsubscribe(id))]. *)
Definition unsubscribe_each (ids : list string) (st : Realtime) : Realtime :=
  foldl (λ s id, unsubscribe id s) st ids.

(** [unsubscribeCollection]. *)
Definition unsubscribeCollection (c : string) (st : Realtime) : Realtime :=
  let toRemove :=
    (filter (λ p, collection p.2 = c ∧ persistent p.2 = false) (subscriptions st)).*1 in
  unsubscribe_each toRemove st.

(** [unsubscribeAll]. *)
Definition unsubscribeAll (st : Realtime) : Realtime :=
  let toRemove := (filter (λ p, persistent p.2 = false) (subscriptions st)).*1 in
  unsubscribe_each toRemove st.

(** [getActiveSubscriptions]. *)
Definition getActiveSubscriptions (st : Realtime) : list SubscriptionHandler :=
  (subscriptions st).*2.

(** [hasSubscription]. *)
Definition hasSubscription (subscriptionId : string) (st : Realtime) : bool :=
  bool_decide (is_Some (registry_get subscriptionId (subscriptions st))).

(** The [onUnmounted] hook: every id of the component's set is unsubscribed. *)
Definition onUnmounted (st : Realtime) : Realtime :=
  unsubscribe_each (localSubscriptions st) st.

(** Whether calling the handler's [unsubscribe] throws. *)
Definition unsubscribe_throws (h : SubscriptionHandler) : bool :=
  match handler_unsubscribe h with
  | Normal _ => false
  | Throw _ => true
  end.

(** What every registry satisfies, whoever wrote to it: no id twice, and
    every handler filed under its own [uid]. *)
Definition registry_keyed (m : list (string * SubscriptionHandler)) : Prop :=
  NoDup m.*1 ∧ ∀ k h, (k, h) ∈ m → uid h = k.

(** A state in which, besides, the component's set is without repetition and
    made of registered, non-persistent ids only. A component that works
    alone, one call after the other, stays in such states; calls from
    another component, or overlapping calls of [subscribe], can leave them. *)
Definition registry_ok (st : Realtime) : Prop :=
  NoDup (subscriptions st).*1 ∧
  (∀ k h, (k, h) ∈ subscriptions st → uid h = k) ∧
  NoDup (localSubscriptions st) ∧
  (∀ id, id ∈ localSubscriptions st →
     ∃ h, registry_get id (subscriptions st) = Some h ∧ persistent h = false).

(** *** Sample subscriptions *)

(** An SDK on which every subscription goes through and can be cancelled. *)
Definition sdk_subscribing (c id : string) : Completion (Completion unit) :=
  Normal (Normal tt).

(** Options for a subscription to [articles] under the id [feed]. *)
Definition feed_options : SubscriptionOptions :=
  {| opt_collection := "articles"; opt_uid := Some "feed"; opt_persistent := None |}.

(** The registry after one subscription that can be cancelled. *)
Definition one_feed : Realtime :=
  (subscribe sdk_subscribing "r1" feed_options realtime_empty).2.

(** Options for a persistent subscription to [alerts] under the id [alarm]. *)
Definition alarm_options : SubscriptionOptions :=
  {| opt_collection := "alerts"; opt_uid := Some "alarm"; opt_persistent := Some true |}.

(** Options for a persistent subscription to [articles] under the id [feed]. *)
Definition feed_kept_options : SubscriptionOptions :=
  {| opt_collection := "articles"; opt_uid := Some "feed"; opt_persistent := Some true |}.

(** Two components. This one has subscribed to [feed]; another one, which
    tracks nothing, unsubscribes [feed] and subscribes to it again, this time
    as persistent. Seen from here, the registry holds the persistent [feed]
    and the set still names [feed]. *)
Definition feed_taken_over : Realtime :=
  (elsewhere [] (λ st, (subscribe sdk_subscribing "r3" feed_kept_options st).2)
     (elsewhere [] (unsubscribe "feed") one_feed).1).1.

(** * Properties *)

(** Unfold the plumbing of [M]. *)
Ltac run :=
  cbv [mbind M_bind mret M_ret try_catch try_finally await gets modify throw
       console_error navigateTo] in *.

(** ** Idioms *)

Lemma truthy_true (s : string) : truthy s = true ↔ s ≠ "".
Proof. destruct s; simpl; split; congruence. Qed.

Lemma role_truthy_true (r : RoleValue) : role_truthy r = true ↔ r ≠ RoleName "".
Proof.
  destruct r as [s|p]; simpl; [|done].
  rewrite truthy_true. split; congruence.
Qed.

Lemma str_or_truthy (s d : string) : s ≠ "" → str_or s d = s.
Proof. intros H. unfold str_or. by apply truthy_true in H as ->. Qed.

Lemma opt_or_declared (o : option string) (s d : string) :
  o = Some s → s ≠ "" → opt_or o d = s.
Proof. intros -> H. by apply str_or_truthy. Qed.

Lemma includes_elem_of (l : list string) (x : string) : includes l x = true ↔ x ∈ l.
Proof.
  unfold includes. rewrite existsb_exists. split.
  - intros (y & Hy & Heq). apply String.eqb_eq in Heq as ->. by apply list_elem_of_In.
  - intros H. exists x. split; [by apply list_elem_of_In | apply String.eqb_refl].
Qed.

(** [a.some((x) => b.includes(x))] holds exactly when the two arrays share an element. *)
Lemma some_includes (a b : list string) :
  existsb (λ x, includes b x) a = true ↔ ∃ x, x ∈ a ∧ x ∈ b.
Proof.
  rewrite existsb_exists. split.
  - intros (x & Hx & Hb). exists x. split; [by apply list_elem_of_In | by apply includes_elem_of].
  - intros (x & Hx & Hb). exists x. split; [by apply list_elem_of_In | by apply includes_elem_of].
Qed.

(** Among resolved roles, a string is found exactly where it stands as a name. *)
Lemma roles_include_elem_of (l : list RoleValue) (x : string) :
  roles_include l x = true ↔ RoleName x ∈ l.
Proof.
  unfold roles_include. rewrite existsb_exists. split.
  - intros ([s|p] & Hy & Heq); [|done].
    apply String.eqb_eq in Heq as ->. by apply list_elem_of_In.
  - intros H. exists (RoleName x). split; [by apply list_elem_of_In | apply String.eqb_refl].
Qed.

(** A resolved role is found in an array of strings exactly when it is a
    name the array holds. *)
Lemma includes_role_elem_of (l : list string) (r : RoleValue) :
  includes_role l r = true ↔ ∃ x, r = RoleName x ∧ x ∈ l.
Proof.
  destruct r as [s|p]; simpl.
  - rewrite includes_elem_of. split; [by exists s|]. by intros (x & [= ->] & Hx).
  - split; [done|]. by intros (x & ? & _).
Qed.

(** [a.some((x) => roles.includes(x))]: the array shares a name with the roles. *)
Lemma some_roles_include (a : list string) (rs : list RoleValue) :
  existsb (λ x, roles_include rs x) a = true ↔ ∃ x, x ∈ a ∧ RoleName x ∈ rs.
Proof.
  rewrite existsb_exists. split.
  - intros (x & Hx & Hb). exists x.
    split; [by apply list_elem_of_In | by apply roles_include_elem_of].
  - intros (x & Hx & Hb). exists x.
    split; [by apply list_elem_of_In | by apply roles_include_elem_of].
Qed.

(** [roles.some((role) => l.includes(role))]: the roles share a name with the array. *)
Lemma some_includes_role (l : list string) (rs : list RoleValue) :
  existsb (λ role, includes_role l role) rs = true ↔ ∃ x, RoleName x ∈ rs ∧ x ∈ l.
Proof.
  rewrite existsb_exists. split.
  - intros (r & Hr & Hl). apply includes_role_elem_of in Hl as (x & -> & Hx).
    exists x. split; [by apply list_elem_of_In | done].
  - intros (x & Hr & Hx). exists (RoleName x).
    split; [by apply list_elem_of_In | apply includes_role_elem_of; by exists x].
Qed.

Lemma is_auth_page_some (config : RuntimeConfig) (p : string) :
  is_auth_page config p =
  let '(loginPath', registerPath', _) := auth_paths config in
  existsb (λ q, startsWith p q) [loginPath'; registerPath'].
Proof.
  unfold is_auth_page. destruct (auth_paths config) as [[lp rp] ap]. simpl.
  by rewrite orb_false_r.
Qed.

(** ** The embedding at work *)

Example startsWith_nested : startsWith "/auth/login/sso" "/auth/login" = true.
Proof. reflexivity. Qed.

Example startsWith_other : startsWith "/authors" "/auth/login" = false.
Proof. reflexivity. Qed.

Example public_page_needs_no_session :
  middleware module_defaults (directusAuth backend_rejecting)
    (page "/about" (AuthBool false)) (page "/" AuthUndefined) initial_world
  = (Normal Allow, initial_world).
Proof. reflexivity. Qed.

Example undeclared_page_follows_global_setting :
  fst (middleware module_defaults (directusAuth backend_rejecting)
         (page "/account" AuthUndefined) (page "/" AuthUndefined) initial_world)
  = Normal (Redirect "/auth/login").
Proof. reflexivity. Qed.

Example editor_on_allow_list :
  fst (middleware (config_with (permissions_on None None))
         (directusAuth (backend_serving (user_with_role (JsString "editor"))))
         (page "/desk" (AuthObject (role_meta (Some ["admin"; "editor"]) None)))
         (page "/" AuthUndefined) initial_world)
  = Normal Allow.
Proof. reflexivity. Qed.

Example viewer_off_allow_list :
  fst (middleware (config_with (permissions_on None None))
         (directusAuth (backend_serving (user_with_role (JsString "viewer"))))
         (page "/desk" (AuthObject (role_meta (Some ["admin"; "editor"]) None)))
         (page "/" AuthUndefined) initial_world)
  = Normal (Redirect "/").
Proof. reflexivity. Qed.

Example mapped_roles :
  fst (userRoles (config_with (permissions_on (Some sample_mapping) None))
         (signed_in (user_with_role (JsArray ["1"; "2"; "3"; "1"]))))
  = Normal [RoleName "admin"; RoleName "2"; RoleName "3"; RoleName "admin"].
Proof. reflexivity. Qed.

Example inherited_name_mapped :
  fst (userRoles (config_with (permissions_on (Some sample_mapping) None))
         (signed_in (user_with_role (JsArray ["toString"; "2"]))))
  = Normal [Inherited "toString"; RoleName "2"].
Proof. reflexivity. Qed.

Example rejected_login_rethrows :
  fst (login module_defaults backend_rejecting (directusAuth backend_rejecting)
         {| email := "u1@example.org"; password := "wrong"; otp := None |} initial_world)
  = Throw {| message := "Invalid user credentials." |}.
Proof. reflexivity. Qed.

(** ** The plugin *)

Lemma checkAuthStatus_run (backend : Backend) (w : World) :
  checkAuthStatus backend w =
  (Normal match request_readMe backend with
          | Normal me => ReturnedMe me
          | Throw _ => ReturnedFalse
          end,
   after_check backend w).
Proof.
  unfold checkAuthStatus, after_check, initializeWebSocket. run.
  destruct (request_readMe backend) as [me|e]; simpl; [|done].
  destruct (isWebSocketConnected w), (import_meta_client backend); done.
Qed.

Lemma after_check_cookie (backend : Backend) (w : World) :
  redirectCookie (after_check backend w) = redirectCookie w.
Proof.
  unfold after_check. destruct (request_readMe backend); simpl; [|done].
  by destruct (negb _ && _).
Qed.

Lemma after_check_navigated (backend : Backend) (w : World) :
  navigated (after_check backend w) = navigated w.
Proof.
  unfold after_check. destruct (request_readMe backend); simpl; [|done].
  by destruct (negb _ && _).
Qed.

Lemma after_check_authenticated (backend : Backend) (w : World) :
  isAuthenticatedState (after_check backend w) =
  match request_readMe backend with Normal _ => true | Throw _ => false end.
Proof.
  unfold after_check. destruct (request_readMe backend); simpl; [|done].
  by destruct (negb _ && _).
Qed.

Lemma after_check_user (backend : Backend) (w : World) :
  currentUser (after_check backend w) =
  match request_readMe backend with Normal me => Some me | Throw _ => None end.
Proof.
  unfold after_check. destruct (request_readMe backend); simpl; [|done].
  by destruct (negb _ && _).
Qed.

(** C9. Every call of the session re-validation [checkAuthStatus] completes
    without throwing, and leaves the session with [authenticated = true]
    exactly when a user record is present: when the backend answers with the
    record, both are set ([true], [Some record]) and the record is returned;
    when the request fails, both are reset ([false], [None]) and [false] is
    returned instead of an error. *)
Theorem checkAuthStatus_authenticated_iff_user (backend : Backend) (w : World) :
  ∃ (r : CheckResult) (w' : World),
    checkAuthStatus backend w = (Normal r, w') ∧
    (isAuthenticatedState w' = true ↔ is_Some (currentUser w')) ∧
    match request_readMe backend with
    | Normal me =>
        r = ReturnedMe me ∧ isAuthenticatedState w' = true ∧ currentUser w' = Some me
    | Throw _ =>
        r = ReturnedFalse ∧ isAuthenticatedState w' = false ∧ currentUser w' = None
    end.
Proof.
  eexists _, _. split; [apply checkAuthStatus_run|].
  rewrite after_check_authenticated, after_check_user.
  destruct (request_readMe backend) as [me|e]; repeat split; try done.
  all: first [by eexists | by intros [? ?]].
Qed.

(** ** The role pipeline *)

Lemma apply_transform_run (tag : string) (pc : DirectusPermissionsConfig)
    (raw : JsValue) (u : DirectusUser) (w : World) :
  apply_transform tag pc raw u w =
  match transform pc with
  | Some f =>
      match f raw u with
      | Normal v => (Normal v, w)
      | Throw _ => (Normal raw, add_consoleError (tag ++ " Error in transform function:") w)
      end
  | None => (Normal raw, w)
  end.
Proof.
  unfold apply_transform. destruct (transform pc) as [f|]; [|done].
  run. by destruct (f raw u).
Qed.

(** The transform step always completes, and touches nothing but the console. *)
Lemma apply_transform_total (tag : string) (pc : DirectusPermissionsConfig)
    (raw : JsValue) (u : DirectusUser) (w : World) :
  ∃ v w', apply_transform tag pc raw u w = (Normal v, w') ∧
          isAuthenticatedState w' = isAuthenticatedState w ∧
          currentUser w' = currentUser w ∧
          redirectCookie w' = redirectCookie w.
Proof.
  rewrite apply_transform_run. destruct (transform pc) as [f|]; [|by eexists _, _].
  destruct (f raw u); by eexists _, _.
Qed.

Lemma apply_mapping_length (mp : option (gmap string string)) (rs : list string) :
  length (apply_mapping mp rs) = length rs.
Proof. destruct mp; simpl; apply length_map. Qed.

Lemma apply_mapping_lookup (m : gmap string string) (rs : list string) (i : nat) :
  apply_mapping (Some m) rs !! i = (λ role, role_or (mapping_get m role) role) <$> rs !! i.
Proof. simpl. apply list_lookup_fmap. Qed.

Lemma mapping_get_own (m : gmap string string) (r v : string) :
  m !! r = Some v → mapping_get m r = Some (RoleName v).
Proof. unfold mapping_get. by intros ->. Qed.

Lemma mapping_get_missing (m : gmap string string) (r : string) :
  m !! r = None →
  mapping_get m r = if includes object_prototype_properties r then Some (Inherited r) else None.
Proof. unfold mapping_get. by intros ->. Qed.

(** The mapping step, position by position. It keeps the length of the role
    sequence. An element with an entry whose value is not the empty string is
    replaced by that value; an element whose entry is the empty string stays
    as it is; an element without an entry stays as it is unless it is the
    name of a property every object inherits, and then the inherited value
    takes its place. *)
Lemma mapping_step_elementwise (m : gmap string string) (rs : list string) :
  length (apply_mapping (Some m) rs) = length rs ∧
  ∀ (i : nat) (r : string), rs !! i = Some r →
    (∀ v, m !! r = Some v → v ≠ "" →
       apply_mapping (Some m) rs !! i = Some (RoleName v)) ∧
    (m !! r = Some "" → apply_mapping (Some m) rs !! i = Some (RoleName r)) ∧
    (m !! r = None → r ∉ object_prototype_properties →
       apply_mapping (Some m) rs !! i = Some (RoleName r)) ∧
    (m !! r = None → r ∈ object_prototype_properties →
       apply_mapping (Some m) rs !! i = Some (Inherited r)).
Proof.
  split; [apply apply_mapping_length|].
  intros i r Hi. rewrite apply_mapping_lookup, Hi. simpl.
  repeat split.
  - intros v Hv Hne. rewrite (mapping_get_own _ _ _ Hv). simpl. by rewrite str_or_truthy.
  - intros Hv. by rewrite (mapping_get_own _ _ _ Hv).
  - intros Hv Hr. rewrite (mapping_get_missing _ _ Hv).
    destruct (includes object_prototype_properties r) eqn:Hin; [|done].
    by apply includes_elem_of in Hin.
  - intros Hv Hr. rewrite (mapping_get_missing _ _ Hv).
    apply includes_elem_of in Hr. by rewrite Hr.
Qed.

Lemma resolve_roles_run (tag : string) (pc : DirectusPermissionsConfig)
    (u : DirectusUser) (w : World) :
  resolve_roles tag pc u w =
  match apply_transform tag pc (raw_role pc u) u w with
  | (Normal v, w') => (Normal (apply_mapping (mapping pc) (normalize_roles v)), w')
  | (Throw e, w') => (Throw e, w')
  end.
Proof. done. Qed.

(** The pipeline always completes, and touches nothing but the console. *)
Lemma resolve_roles_total (tag : string) (pc : DirectusPermissionsConfig)
    (u : DirectusUser) (w : World) :
  ∃ rs w', resolve_roles tag pc u w = (Normal rs, w') ∧
           isAuthenticatedState w' = isAuthenticatedState w ∧
           currentUser w' = currentUser w ∧
           redirectCookie w' = redirectCookie w.
Proof.
  rewrite resolve_roles_run.
  destruct (apply_transform_total tag pc (raw_role pc u) u w) as (v & w' & -> & H).
  by eexists _, _.
Qed.

Lemma userRoles_run (config : RuntimeConfig) (w : World) :
  userRoles config w =
  match currentUser w, config_permissions config with
  | Some u, Some pc =>
      if enabled pc then resolve_roles "[useDirectusAuth]" pc u w else (Normal [], w)
  | _, _ => (Normal [], w)
  end.
Proof.
  unfold userRoles. run. destruct (currentUser w) as [u|]; [|done].
  destruct (config_permissions config) as [pc|]; [|done].
  by destruct (enabled pc).
Qed.

Lemma userRole_run (config : RuntimeConfig) (w : World) :
  userRole config w =
  match userRoles config w with
  | (Normal (r :: _), w') => (Normal (if role_truthy r then Some r else None), w')
  | (Normal [], w') => (Normal None, w')
  | (Throw e, w') => (Throw e, w')
  end.
Proof.
  unfold userRole. run. destruct (userRoles config w) as [[[|r rs]|e] w']; done.
Qed.

(** The route middleware never throws: whatever goes wrong inside its [try]
    block ends in the [catch] block, which returns a redirect. *)
Lemma middleware_total (config : RuntimeConfig) (plugin : DirectusAuthPlugin)
    (to from : Route) (w : World) :
  ∃ o w', middleware config plugin to from w = (Normal o, w').
Proof.
  unfold middleware, on_error.
  destruct (auth_paths config) as [[lp rp] ap].
  destruct (resolve_auth_meta config (meta_auth to)) as [requiresAuth authMeta].
  destruct (existsb _ _); [by eexists _, _|].
  destruct (negb requiresAuth); [by eexists _, _|].
  run. destruct (guarded config plugin authMeta to from w) as [[o|e] w']; [by eexists _, _|].
  destruct (negb _ && negb _); by eexists _, _.
Qed.

(** C5. When the configured transform throws on the raw value of the role
    field, the role pipeline (the same at both sites, whatever the tag of the
    logged line) does not throw: it logs one line and carries on with the raw
    value, so the roles are the normalised and mapped raw value. In
    particular, with no mapping and the raw scalar [x], the roles are [[x]];
    [userRoles] returns them, and the route middleware completes with an
    outcome. *)
Theorem transform_fault_falls_back
    (config : RuntimeConfig) (pc : DirectusPermissionsConfig) (u : DirectusUser)
    (f : JsValue → DirectusUser → Completion JsValue) (e : JsError) :
  config_permissions config = Some pc →
  enabled pc = true →
  transform pc = Some f →
  f (raw_role pc u) u = Throw e →
  (∀ tag w,
     resolve_roles tag pc u w =
     (Normal (apply_mapping (mapping pc) (normalize_roles (raw_role pc u))),
      add_consoleError (tag ++ " Error in transform function:") w)) ∧
  (∀ tag w x, raw_role pc u = JsString x → mapping pc = None →
     fst (resolve_roles tag pc u w) = Normal [RoleName x]) ∧
  (∀ w x, currentUser w = Some u → raw_role pc u = JsString x → mapping pc = None →
     fst (userRoles config w) = Normal [RoleName x]) ∧
  (∀ plugin to from w, ∃ o w', middleware config plugin to from w = (Normal o, w')).
Proof.
  intros Hpc Hen Hf Hthrow.
  assert (Hrun : ∀ tag w,
     resolve_roles tag pc u w =
     (Normal (apply_mapping (mapping pc) (normalize_roles (raw_role pc u))),
      add_consoleError (tag ++ " Error in transform function:") w)).
  { intros tag w. rewrite resolve_roles_run, apply_transform_run, Hf, Hthrow. done. }
  split; [done|]. split; [|split].
  - intros tag w x Hx Hm. by rewrite Hrun, Hx, Hm.
  - intros w x Hu Hx Hm. by rewrite userRoles_run, Hu, Hpc, Hen, Hrun, Hx, Hm.
  - intros. apply middleware_total.
Qed.

Lemma transform_fault_falls_back_witness :
  fst (userRoles (config_with (permissions_on None (Some failing_transform)))
         (signed_in (user_with_role (JsString "x")))) = Normal [RoleName "x"].
Proof.
  refine (proj1 (proj2 (proj2
    (transform_fault_falls_back
       (config_with (permissions_on None (Some failing_transform)))
       (permissions_on None (Some failing_transform))
       (user_with_role (JsString "x")) failing_transform {| message := "boom" |}
       _ _ _ _))) _ "x" _ _ _); reflexivity.
Defined.

(** C6, as the code has it. For a signed-in user and a permissions
    configuration: with [enabled = false] the roles are empty; with
    [enabled = true] the roles are the value left by the transform step,
    normalised (an array as it is, a string wrapped into a one-element array,
    [null] and [undefined] as the empty array) and then mapped, position by
    position, so that order and repetitions are kept (same length, and the
    very same sequence when no mapping is configured). The single-role
    accessor [userRole] returns the first role when that role is not the
    empty string; it returns [null] when there is no role or when the first
    role is the empty string. *)
Theorem userRoles_normalized
    (config : RuntimeConfig) (pc : DirectusPermissionsConfig) (u : DirectusUser) (w : World) :
  currentUser w = Some u →
  config_permissions config = Some pc →
  (enabled pc = false → userRoles config w = (Normal [], w)) ∧
  (enabled pc = true →
     ∃ v w', apply_transform "[useDirectusAuth]" pc (raw_role pc u) u w = (Normal v, w') ∧
       userRoles config w = (Normal (apply_mapping (mapping pc) (normalize_roles v)), w') ∧
       length (apply_mapping (mapping pc) (normalize_roles v)) = length (normalize_roles v) ∧
       (mapping pc = None →
          apply_mapping (mapping pc) (normalize_roles v) = map RoleName (normalize_roles v)) ∧
       match v with
       | JsArray l => normalize_roles v = l
       | JsString s => normalize_roles v = [s]
       | JsNull | JsUndefined => normalize_roles v = []
       end) ∧
  (∀ r rest w', userRoles config w = (Normal (r :: rest), w') → r ≠ RoleName "" →
     userRole config w = (Normal (Some r), w')) ∧
  (∀ rest w', userRoles config w = (Normal (RoleName "" :: rest), w') →
     userRole config w = (Normal None, w')) ∧
  (∀ w', userRoles config w = (Normal [], w') → userRole config w = (Normal None, w')).
Proof.
  intros Hu Hpc. repeat split.
  - intros Hen. by rewrite userRoles_run, Hu, Hpc, Hen.
  - intros Hen.
    destruct (apply_transform_total "[useDirectusAuth]" pc (raw_role pc u) u w)
      as (v & w' & Hv & _).
    exists v, w'. split; [done|]. split; [|split; [|split]].
    + by rewrite userRoles_run, Hu, Hpc, Hen, resolve_roles_run, Hv.
    + apply apply_mapping_length.
    + by intros ->.
    + by destruct v.
  - intros r rest w' Hrs Hr. rewrite userRole_run, Hrs.
    by apply role_truthy_true in Hr as ->.
  - intros rest w' Hrs. by rewrite userRole_run, Hrs.
  - intros w' Hrs. by rewrite userRole_run, Hrs.
Qed.

Lemma userRoles_normalized_witness :
  userRoles (config_with (permissions_on None None))
    (signed_in (user_with_role (JsArray ["editor"; "admin"; "editor"]))) =
    (Normal [RoleName "editor"; RoleName "admin"; RoleName "editor"],
     signed_in (user_with_role (JsArray ["editor"; "admin"; "editor"]))) ∧
  userRole (config_with (permissions_on None None))
    (signed_in (user_with_role (JsArray ["editor"; "admin"; "editor"]))) =
    (Normal (Some (RoleName "editor")),
     signed_in (user_with_role (JsArray ["editor"; "admin"; "editor"]))).
Proof.
  pose proof (userRoles_normalized (config_with (permissions_on None None))
    (permissions_on None None) (user_with_role (JsArray ["editor"; "admin"; "editor"]))
    (signed_in (user_with_role (JsArray ["editor"; "admin"; "editor"])))
    eq_refl eq_refl) as (_ & Hon & Hfirst & _).
  destruct (Hon eq_refl) as (v & w' & Hv & Hroles & _).
  injection Hv as <- <-.
  split; [exact Hroles|].
  apply (Hfirst (RoleName "editor") [RoleName "admin"; RoleName "editor"]);
    [exact Hroles | discriminate].
Defined.

(** C6, as stated, fails for a first role that is the empty string: the
    roles of a user whose [role] field is [""] are [[""]], yet [userRole]
    returns [null], not that first element. *)
Lemma userRole_blank_first_counterexample :
  fst (userRoles (config_with (permissions_on None None))
         (signed_in (user_with_role (JsString "")))) = Normal [RoleName ""] ∧
  fst (userRole (config_with (permissions_on None None))
         (signed_in (user_with_role (JsString "")))) = Normal None ∧
  fst (userRole (config_with (permissions_on None None))
         (signed_in (user_with_role (JsString "")))) ≠ Normal (Some (RoleName "")).
Proof. vm_compute. repeat split; discriminate. Qed.

(** C7 fails on the code at a role named like a property every object
    inherits. The declared types ([mapping?: Record<string, string>],
    [userRoles: ComputedRef<string[]>]) and the claim have the mapping step
    turn role strings into role strings, leaving a role without an entry as
    it is. With the mapping [{ "1": "admin", "3": "" }], which has no entry
    for [constructor], the roles [["1", "constructor"]] resolve, at the
    composable as at the middleware, to [admin] followed by the inherited
    [constructor] function, not by the unchanged string [constructor]. So
    [hasRole("constructor")] is false for that user, and a page open to the
    role [constructor] turns the user away. *)
Theorem inherited_property_taken_for_entry :
  sample_mapping !! "constructor" = None ∧
  userRoles (config_with (permissions_on (Some sample_mapping) None))
    (signed_in (user_with_role (JsArray ["1"; "constructor"])))
  = (Normal [RoleName "admin"; Inherited "constructor"],
     signed_in (user_with_role (JsArray ["1"; "constructor"]))) ∧
  resolve_roles guard_tag (permissions_on (Some sample_mapping) None)
    (user_with_role (JsArray ["1"; "constructor"]))
    (signed_in (user_with_role (JsArray ["1"; "constructor"])))
  = (Normal [RoleName "admin"; Inherited "constructor"],
     signed_in (user_with_role (JsArray ["1"; "constructor"]))) ∧
  [RoleName "admin"; Inherited "constructor"] ≠ [RoleName "admin"; RoleName "constructor"] ∧
  fst (hasRole (config_with (permissions_on (Some sample_mapping) None)) "constructor"
         (signed_in (user_with_role (JsArray ["1"; "constructor"])))) = Normal false ∧
  fst (middleware (config_with (permissions_on (Some sample_mapping) None))
         (directusAuth (backend_serving (user_with_role (JsArray ["1"; "constructor"]))))
         (page "/tools" (AuthObject (role_meta (Some ["constructor"]) None)))
         (page "/" AuthUndefined) initial_world) = Normal (Redirect "/").
Proof.
  split; [by vm_compute|]. split; [reflexivity|]. split; [reflexivity|].
  split; [discriminate|]. split; reflexivity.
Qed.

(** ** The route middleware *)

Lemma auth_paths_eta (config : RuntimeConfig) :
  auth_paths config = (login_path config, register_path config, after_login_path config).
Proof.
  unfold login_path, register_path, after_login_path.
  by destruct (auth_paths config) as [[? ?] ?].
Qed.

Lemma is_auth_page_unfold (config : RuntimeConfig) (p : string) :
  is_auth_page config p =
  startsWith p (login_path config) || startsWith p (register_path config).
Proof. unfold is_auth_page. by rewrite auth_paths_eta. Qed.

Lemma not_auth_page_store (config : RuntimeConfig) (p : string) :
  is_auth_page config p = false →
  negb (startsWith p (login_path config)) && negb (startsWith p (register_path config)) = true.
Proof.
  rewrite is_auth_page_unfold. by destruct (startsWith p _), (startsWith p _).
Qed.

Lemma role_checks_skipped (config : RuntimeConfig) (authMeta : option AuthMeta) (w : World) :
  permissions_enabled config = false ∨ currentUser w = None
    ∨ (authMeta ≫= roles = None ∧ authMeta ≫= excludeRoles = None) →
  role_checks config authMeta w = (Normal Allow, w).
Proof.
  unfold role_checks, permissions_enabled.
  destruct (config_permissions config) as [pc|]; [|done].
  intros [-> | [Hu | [-> ->]]]; [done | | by rewrite andb_false_r].
  destruct (enabled pc && _); [|done]. run. by rewrite Hu.
Qed.

Lemma role_checks_active (config : RuntimeConfig) (pc : DirectusPermissionsConfig)
    (authMeta : option AuthMeta) (u : DirectusUser) (rs : list RoleValue) (w w' : World) :
  config_permissions config = Some pc →
  enabled pc = true →
  is_Some (authMeta ≫= roles) ∨ is_Some (authMeta ≫= excludeRoles) →
  currentUser w = Some u →
  resolve_roles guard_tag pc u w = (Normal rs, w') →
  role_checks config authMeta w =
  (Normal
     (if nonempty_array (authMeta ≫= roles)
         && negb (existsb (λ requiredRole, roles_include rs requiredRole)
                    (default [] (authMeta ≫= roles)))
      then Redirect (unauthorized_target authMeta)
      else if nonempty_array (authMeta ≫= excludeRoles)
              && existsb (λ role, includes_role (default [] (authMeta ≫= excludeRoles)) role) rs
      then Redirect (unauthorized_target authMeta)
      else Allow), w').
Proof.
  intros Hpc Hen Hdecl Hu Hrs. unfold role_checks. rewrite Hpc, Hen. simpl.
  assert (bool_decide (is_Some (authMeta ≫= roles))
          || bool_decide (is_Some (authMeta ≫= excludeRoles)) = true) as ->.
  { apply orb_true_iff. destruct Hdecl; [left | right]; by apply bool_decide_eq_true. }
  run. rewrite Hu, Hrs. unfold unauthorized_target.
  repeat case_match; reflexivity.
Qed.

(** The role block always completes, and leaves session and cookie alone. *)
Lemma role_checks_total (config : RuntimeConfig) (authMeta : option AuthMeta) (w : World) :
  ∃ o w', role_checks config authMeta w = (Normal o, w') ∧
          redirectCookie w' = redirectCookie w.
Proof.
  destruct (config_permissions config) as [pc|] eqn:Hpc;
    [|exists Allow, w; split; [|done]; apply role_checks_skipped; left;
      unfold permissions_enabled; by rewrite Hpc].
  destruct (enabled pc) eqn:Hen;
    [|exists Allow, w; split; [|done]; apply role_checks_skipped; left;
      unfold permissions_enabled; by rewrite Hpc].
  destruct (currentUser w) as [u|] eqn:Hu;
    [|exists Allow, w; split; [|done]; apply role_checks_skipped; by right; left].
  destruct (resolve_roles_total guard_tag pc u w)
    as (rs & w' & Hrs & _ & _ & Hc).
  destruct (decide (is_Some (authMeta ≫= roles) ∨ is_Some (authMeta ≫= excludeRoles)))
    as [Hdecl|Hnone].
  - eexists _, w'. split; [|done].
    exact (role_checks_active config pc authMeta u rs w w' Hpc Hen Hdecl Hu Hrs).
  - exists Allow, w. split; [|done]. apply role_checks_skipped. right; right.
    destruct (authMeta ≫= roles); [destruct Hnone; left; by eexists|].
    destruct (authMeta ≫= excludeRoles); [destruct Hnone; right; by eexists|]. done.
Qed.

Lemma decide_access_unauthenticated (config : RuntimeConfig) (authMeta : option AuthMeta)
    (to from : Route) (w : World) :
  isAuthenticatedState w = false →
  is_auth_page config (path to) = false →
  decide_access config authMeta to from w =
  if opt_true (authMeta ≫= unauthenticatedOnly) then (Normal Allow, w)
  else (Normal (Redirect (opt_or (authMeta ≫= navigateUnauthenticatedTo) (login_path config))),
        set_redirectCookie (fullPath to) w).
Proof.
  intros Hauth Hpage. apply not_auth_page_store in Hpage.
  unfold decide_access. rewrite auth_paths_eta. run. rewrite Hauth. simpl.
  destruct (opt_true _); [done|]. by rewrite Hpage.
Qed.

Lemma decide_access_authenticated (config : RuntimeConfig) (authMeta : option AuthMeta)
    (to from : Route) (w : World) :
  isAuthenticatedState w = true →
  decide_access config authMeta to from w =
  if opt_true (authMeta ≫= unauthenticatedOnly) then
    if truthy (redirectCookie w) && is_auth_page config (path from)
    then (Normal (Redirect (redirectCookie w)), set_redirectCookie "" w)
    else (Normal (Redirect (opt_or (authMeta ≫= navigateAuthenticatedTo)
                              (after_login_path config))), w)
  else role_checks config authMeta w.
Proof.
  intros Hauth. unfold decide_access. rewrite is_auth_page_unfold, auth_paths_eta.
  run. rewrite Hauth. simpl.
  destruct (opt_true _); [|done]. by destruct (truthy _ && _).
Qed.

Lemma decide_access_total (config : RuntimeConfig) (authMeta : option AuthMeta)
    (to from : Route) (w : World) :
  ∃ o w', decide_access config authMeta to from w = (Normal o, w').
Proof.
  destruct (isAuthenticatedState w) eqn:Hauth.
  - rewrite decide_access_authenticated by done.
    destruct (opt_true _).
    + destruct (truthy _ && _); by eexists _, _.
    + destruct (role_checks_total config authMeta w) as (o & w' & -> & _). by eexists _, _.
  - unfold decide_access. destruct (auth_paths config) as [[lp rp] ap].
    run. rewrite Hauth. simpl.
    destruct (opt_true _); [by eexists _, _|].
    destruct (negb _ && negb _); by eexists _, _.
Qed.

(** On a route that is guarded (not an auth page, authentication required),
    the middleware checks the session and then decides; only a throwing
    session check ends in the [catch] block. *)
Lemma middleware_protected (config : RuntimeConfig) (plugin : DirectusAuthPlugin)
    (to from : Route) (authMeta : option AuthMeta) (w : World) :
  is_auth_page config (path to) = false →
  resolve_auth_meta config (meta_auth to) = (true, authMeta) →
  middleware config plugin to from w =
  match plugin_checkAuthStatus plugin w with
  | (Normal _, w1) => decide_access config authMeta to from w1
  | (Throw _, w1) =>
      (Normal (Redirect (login_path config)),
       set_redirectCookie (fullPath to) (add_consoleError guard_error_line w1))
  end.
Proof.
  intros Hpage Hmeta. unfold middleware, guarded, on_error.
  pose proof (is_auth_page_some config (path to)) as Hsome.
  apply not_auth_page_store in Hpage as Hstore.
  rewrite Hpage, auth_paths_eta in Hsome. rewrite auth_paths_eta, Hmeta, <- Hsome. simpl.
  run. destruct (plugin_checkAuthStatus plugin w) as [[r|e] w1].
  - destruct (decide_access_total config authMeta to from w1) as (o & w' & ->). done.
  - by rewrite Hstore.
Qed.

(** On an auth page the middleware returns at once, before any session check. *)
Lemma middleware_auth_page (config : RuntimeConfig) (plugin : DirectusAuthPlugin)
    (to from : Route) (w : World) :
  is_auth_page config (path to) = true →
  middleware config plugin to from w = (Normal Allow, w).
Proof.
  intros Hpage. unfold middleware.
  pose proof (is_auth_page_some config (path to)) as Hsome.
  rewrite Hpage, auth_paths_eta in Hsome. rewrite auth_paths_eta, <- Hsome.
  by destruct (resolve_auth_meta config (meta_auth to)).
Qed.

(** C3. An unauthenticated session (the session check completes and leaves
    [isAuthenticated] false) navigates to a route that requires
    authentication, is not unauthenticated-only, and whose path starts with
    neither the login nor the register path. Then the outcome is a redirect
    to the route's [navigateUnauthenticatedTo] when one is declared (a
    non-empty string), else to the login path, and afterwards the redirect
    cookie holds the requested location ([to.fullPath]). *)
Theorem unauthenticated_redirect_remembers
    (config : RuntimeConfig) (plugin : DirectusAuthPlugin) (to from : Route)
    (authMeta : option AuthMeta) (r : CheckResult) (w w1 : World) :
  is_auth_page config (path to) = false →
  resolve_auth_meta config (meta_auth to) = (true, authMeta) →
  opt_true (authMeta ≫= unauthenticatedOnly) = false →
  plugin_checkAuthStatus plugin w = (Normal r, w1) →
  isAuthenticatedState w1 = false →
  ∃ target,
    middleware config plugin to from w =
      (Normal (Redirect target), set_redirectCookie (fullPath to) w1) ∧
    redirectCookie (set_redirectCookie (fullPath to) w1) = fullPath to ∧
    (∀ p, authMeta ≫= navigateUnauthenticatedTo = Some p → p ≠ "" → target = p) ∧
    (authMeta ≫= navigateUnauthenticatedTo = None → target = login_path config).
Proof.
  intros Hpage Hmeta Honly Hcheck Hauth.
  rewrite (middleware_protected _ _ _ _ _ _ Hpage Hmeta), Hcheck.
  rewrite decide_access_unauthenticated, Honly by done.
  eexists. split; [done|]. split; [done|]. split.
  - intros p Hp Hne. by apply opt_or_declared.
  - by intros ->.
Qed.

Lemma unauthenticated_redirect_remembers_witness :
  ∃ w', middleware module_defaults (directusAuth backend_rejecting) dashboard
          (page "/" (AuthBool false)) initial_world
        = (Normal (Redirect "/auth/login"), w') ∧
        redirectCookie w' = "/dashboard?tab=2".
Proof.
  destruct (unauthenticated_redirect_remembers module_defaults
    (directusAuth backend_rejecting) dashboard (page "/" (AuthBool false))
    (Some empty_meta) ReturnedFalse initial_world
    (set_currentUser None (set_isAuthenticatedState false initial_world))
    eq_refl eq_refl eq_refl eq_refl eq_refl) as (target & Hm & Hc & _ & Hnone).
  rewrite (Hnone eq_refl) in Hm.
  eexists. split; [exact Hm | exact Hc].
Defined.

(** An authenticated session (the session check completes and leaves
    [isAuthenticated] true) on a route declared unauthenticated-only. When
    the path starts with neither the login nor the register path, the branch
    at lines 125-146 runs: with a non-empty redirect cookie and a previous
    path that starts with the login or the register path, the outcome is a
    redirect to the remembered location and the cookie is cleared; otherwise
    the outcome is a redirect to the route's [navigateAuthenticatedTo] when
    one is declared (a non-empty string), else to [afterLoginPath], and the
    cookie is left as it is. When the path does start with the login or the
    register path, that branch is never reached: the early return of lines
    85-88 has allowed the navigation before the session was looked at. *)
Lemma authenticated_on_unauthenticated_only
    (config : RuntimeConfig) (plugin : DirectusAuthPlugin) (to from : Route)
    (authMeta : option AuthMeta) (r : CheckResult) (w w1 : World) :
  resolve_auth_meta config (meta_auth to) = (true, authMeta) →
  opt_true (authMeta ≫= unauthenticatedOnly) = true →
  plugin_checkAuthStatus plugin w = (Normal r, w1) →
  isAuthenticatedState w1 = true →
  (is_auth_page config (path to) = true →
     middleware config plugin to from w = (Normal Allow, w)) ∧
  (is_auth_page config (path to) = false →
     redirectCookie w1 ≠ "" → is_auth_page config (path from) = true →
     middleware config plugin to from w =
       (Normal (Redirect (redirectCookie w1)), set_redirectCookie "" w1)) ∧
  (is_auth_page config (path to) = false →
     redirectCookie w1 = "" ∨ is_auth_page config (path from) = false →
     ∃ target,
       middleware config plugin to from w = (Normal (Redirect target), w1) ∧
       (∀ p, authMeta ≫= navigateAuthenticatedTo = Some p → p ≠ "" → target = p) ∧
       (authMeta ≫= navigateAuthenticatedTo = None → target = after_login_path config)).
Proof.
  intros Hmeta Honly Hcheck Hauth.
  split; [apply middleware_auth_page|].
  split; intros Hpage.
  - intros Hcookie Hfrom.
    rewrite (middleware_protected _ _ _ _ _ _ Hpage Hmeta), Hcheck.
    rewrite decide_access_authenticated, Honly by done.
    apply truthy_true in Hcookie. by rewrite Hcookie, Hfrom.
  - intros Hno.
    rewrite (middleware_protected _ _ _ _ _ _ Hpage Hmeta), Hcheck.
    rewrite decide_access_authenticated, Honly by done.
    assert (truthy (redirectCookie w1) && is_auth_page config (path from) = false) as ->.
    { destruct Hno as [-> | ->]; [done | apply andb_false_r]. }
    eexists. split; [done|]. split.
    + intros p Hp Hne. by apply opt_or_declared.
    + by intros ->.
Qed.

Lemma authenticated_on_unauthenticated_only_witness :
  middleware module_defaults (directusAuth (backend_serving (user_with_role JsNull)))
    (page "/welcome" (AuthObject guests_only)) (page "/auth/login" AuthUndefined)
    (signed_in_remembering (user_with_role JsNull) "/dashboard")
  = (Normal (Redirect "/dashboard"),
     set_redirectCookie ""
       (set_wsConnects 1 (signed_in_remembering (user_with_role JsNull) "/dashboard"))) ∧
  (∃ target,
    middleware module_defaults (directusAuth (backend_serving (user_with_role JsNull)))
      (page "/welcome" (AuthObject guests_only)) (page "/" AuthUndefined)
      (signed_in (user_with_role JsNull))
    = (Normal (Redirect target), set_wsConnects 1 (signed_in (user_with_role JsNull))) ∧
    target = "/") ∧
  middleware module_defaults (directusAuth (backend_serving (user_with_role JsNull)))
    (page "/auth/register" (AuthObject guests_only)) (page "/" AuthUndefined)
    (signed_in (user_with_role JsNull))
  = (Normal Allow, signed_in (user_with_role JsNull)).
Proof.
  split; [|split].
  - refine (proj1 (proj2 (authenticated_on_unauthenticated_only module_defaults
      (directusAuth (backend_serving (user_with_role JsNull)))
      (page "/welcome" (AuthObject guests_only)) (page "/auth/login" AuthUndefined)
      (Some guests_only) (ReturnedMe (user_with_role JsNull))
      (signed_in_remembering (user_with_role JsNull) "/dashboard")
      (set_wsConnects 1 (signed_in_remembering (user_with_role JsNull) "/dashboard"))
      eq_refl eq_refl eq_refl eq_refl)) eq_refl _ eq_refl).
    discriminate.
  - destruct (proj2 (proj2 (authenticated_on_unauthenticated_only module_defaults
      (directusAuth (backend_serving (user_with_role JsNull)))
      (page "/welcome" (AuthObject guests_only)) (page "/" AuthUndefined)
      (Some guests_only) (ReturnedMe (user_with_role JsNull))
      (signed_in (user_with_role JsNull))
      (set_wsConnects 1 (signed_in (user_with_role JsNull)))
      eq_refl eq_refl eq_refl eq_refl)) eq_refl (or_introl eq_refl))
      as (target & Hm & _ & Hnone).
    exists target. split; [exact Hm | exact (Hnone eq_refl)].
  - exact (proj1 (authenticated_on_unauthenticated_only module_defaults
      (directusAuth (backend_serving (user_with_role JsNull)))
      (page "/auth/register" (AuthObject guests_only)) (page "/" AuthUndefined)
      (Some guests_only) (ReturnedMe (user_with_role JsNull))
      (signed_in (user_with_role JsNull))
      (set_wsConnects 1 (signed_in (user_with_role JsNull)))
      eq_refl eq_refl eq_refl eq_refl) eq_refl).
Defined.

(** C4 fails on the code at the login page itself. The module's
    documentation has the login route treated as unauthenticated-only, with
    authenticated users redirected; the middleware, however, returns for
    every path that starts with the login or the register path before it
    looks at the session. With the module defaults, a signed-in user who
    opens [/auth/login], declared [{ unauthenticatedOnly: true }], is let in:
    the outcome is Allow, where C4 has a redirect to [afterLoginPath] ([/]),
    and the world is untouched, so no session check ran. *)
Theorem login_page_admits_authenticated :
  startsWith "/auth/login" (login_path module_defaults) = true ∧
  resolve_auth_meta module_defaults (AuthObject guests_only) = (true, Some guests_only) ∧
  opt_true (Some guests_only ≫= unauthenticatedOnly) = true ∧
  isAuthenticatedState
    (snd (checkAuthStatus (backend_serving (user_with_role JsNull))
            (signed_in (user_with_role JsNull)))) = true ∧
  middleware module_defaults (directusAuth (backend_serving (user_with_role JsNull)))
    (page "/auth/login" (AuthObject guests_only)) (page "/" AuthUndefined)
    (signed_in (user_with_role JsNull))
  = (Normal Allow, signed_in (user_with_role JsNull)) ∧
  Allow ≠ Redirect (after_login_path module_defaults).
Proof. repeat (split; [reflexivity|]). discriminate. Qed.

(** C8. An authenticated session (the session check completes and leaves
    [isAuthenticated] true) navigates to a route that requires authentication
    and declares [roles] or [excludeRoles] (and is not unauthenticated-only).
    When the permissions are not enabled in the configuration, or the session
    holds no user record, the role checks are skipped and the outcome is
    Allow; on a guarded path the world is exactly the one the session check
    left, so no error is logged and nothing is remembered. *)
Theorem role_checks_need_permissions_and_user
    (config : RuntimeConfig) (plugin : DirectusAuthPlugin) (to from : Route)
    (authMeta : option AuthMeta) (r : CheckResult) (w w1 : World) :
  resolve_auth_meta config (meta_auth to) = (true, authMeta) →
  opt_true (authMeta ≫= unauthenticatedOnly) = false →
  is_Some (authMeta ≫= roles) ∨ is_Some (authMeta ≫= excludeRoles) →
  plugin_checkAuthStatus plugin w = (Normal r, w1) →
  isAuthenticatedState w1 = true →
  permissions_enabled config = false ∨ currentUser w1 = None →
  fst (middleware config plugin to from w) = Normal Allow ∧
  (is_auth_page config (path to) = false →
     middleware config plugin to from w = (Normal Allow, w1)).
Proof.
  intros Hmeta Honly _ Hcheck Hauth Hgap.
  assert (Hguarded : is_auth_page config (path to) = false →
            middleware config plugin to from w = (Normal Allow, w1)).
  { intros Hpage.
    rewrite (middleware_protected _ _ _ _ _ _ Hpage Hmeta), Hcheck.
    rewrite decide_access_authenticated, Honly by done.
    apply role_checks_skipped. tauto. }
  split; [|done].
  destruct (is_auth_page config (path to)) eqn:Hpage.
  - by rewrite middleware_auth_page.
  - by rewrite Hguarded.
Qed.

Lemma role_checks_need_permissions_and_user_witness :
  middleware module_defaults
    (directusAuth (backend_serving (user_with_role (JsString "viewer"))))
    (page "/admin" (AuthObject (role_meta (Some ["admin"]) None))) (page "/" AuthUndefined)
    initial_world
  = (Normal Allow, set_wsConnects 1 (signed_in (user_with_role (JsString "viewer")))).
Proof.
  refine (proj2 (role_checks_need_permissions_and_user module_defaults
    (directusAuth (backend_serving (user_with_role (JsString "viewer"))))
    (page "/admin" (AuthObject (role_meta (Some ["admin"]) None))) (page "/" AuthUndefined)
    (Some (role_meta (Some ["admin"]) None))
    (ReturnedMe (user_with_role (JsString "viewer"))) initial_world
    (set_wsConnects 1 (signed_in (user_with_role (JsString "viewer"))))
    eq_refl eq_refl _ eq_refl eq_refl (or_introl eq_refl)) eq_refl).
  left. by eexists.
Defined.

(** The allow-list check lets the user through when the list is empty or
    shares a role with the user. *)
Lemma allow_list_passes (allowed : list string) (rs : list RoleValue) :
  nonempty_array (Some allowed)
    && negb (existsb (λ requiredRole, roles_include rs requiredRole) allowed) = false
  ↔ allowed = [] ∨ ∃ x, x ∈ allowed ∧ RoleName x ∈ rs.
Proof.
  rewrite andb_false_iff, negb_false_iff, some_roles_include. split.
  - intros [Hempty | Hshare]; [left; by destruct allowed | by right].
  - intros [-> | Hshare]; [by left | by right].
Qed.

(** The deny-list check stops the user when the list shares a role with the user. *)
Lemma deny_list_hits (denied : list string) (rs : list RoleValue) :
  nonempty_array (Some denied)
    && existsb (λ role, includes_role denied role) rs = true
  ↔ ∃ x, RoleName x ∈ rs ∧ x ∈ denied.
Proof.
  rewrite andb_true_iff, some_includes_role. split; [by intros [_ ?]|].
  intros Hshare. split; [|done].
  destruct Hshare as (x & _ & Hx). destruct denied; [by apply elem_of_nil in Hx | done].
Qed.

(** C1, as the code has it. On a guarded route that declares both [roles]
    and [excludeRoles], with permissions enabled and a signed-in user whose
    roles resolve to [rs], both lists are applied, one after the other: the
    outcome is Allow exactly when [rs] meets the allow-list (or the allow-list
    is empty) and [rs] meets no element of the deny-list; otherwise it is a
    redirect to [unauthorizedRedirect], or to [/] when none is declared. *)
Theorem allow_list_then_deny_list
    (config : RuntimeConfig) (pc : DirectusPermissionsConfig)
    (plugin : DirectusAuthPlugin) (to from : Route) (authMeta : option AuthMeta)
    (allowed denied : list string) (rs : list RoleValue) (u : DirectusUser) (r : CheckResult)
    (w w1 w2 : World) :
  is_auth_page config (path to) = false →
  resolve_auth_meta config (meta_auth to) = (true, authMeta) →
  opt_true (authMeta ≫= unauthenticatedOnly) = false →
  authMeta ≫= roles = Some allowed →
  authMeta ≫= excludeRoles = Some denied →
  config_permissions config = Some pc →
  enabled pc = true →
  plugin_checkAuthStatus plugin w = (Normal r, w1) →
  isAuthenticatedState w1 = true →
  currentUser w1 = Some u →
  resolve_roles guard_tag pc u w1 = (Normal rs, w2) →
  ∃ o,
    middleware config plugin to from w = (Normal o, w2) ∧
    (o = Allow ↔
       (allowed = [] ∨ ∃ x, x ∈ allowed ∧ RoleName x ∈ rs)
       ∧ ¬ (∃ x, RoleName x ∈ rs ∧ x ∈ denied)) ∧
    (o = Allow ∨ o = Redirect (unauthorized_target authMeta)).
Proof.
  intros Hpage Hmeta Honly Hallowed Hdenied Hpc Hen Hcheck Hauth Hu Hrs.
  rewrite (middleware_protected _ _ _ _ _ _ Hpage Hmeta), Hcheck.
  rewrite decide_access_authenticated, Honly by done.
  assert (Hdecl : is_Some (authMeta ≫= roles) ∨ is_Some (authMeta ≫= excludeRoles)).
  { left. rewrite Hallowed. by eexists. }
  rewrite (role_checks_active config pc authMeta u rs w1 w2 Hpc Hen Hdecl Hu Hrs).
  rewrite Hallowed, Hdenied.
  change (default [] (Some allowed)) with allowed.
  change (default [] (Some denied)) with denied.
  eexists. split; [done|].
  pose proof (allow_list_passes allowed rs) as Hallow.
  pose proof (deny_list_hits denied rs) as Hdeny.
  destruct (nonempty_array (Some allowed) && _).
  - split; [|by right]. split; [done|]. intros [Hyes _]. by apply Hallow in Hyes.
  - destruct (nonempty_array (Some denied) && _).
    + split; [|by right]. split; [done|]. intros [_ Hno]. destruct Hno. by apply Hdeny.
    + split; [|by left]. split; [|done]. intros _. split; [by apply Hallow|].
      intros Hhit. by apply Hdeny in Hhit.
Qed.

Lemma allow_list_then_deny_list_witness :
  ∃ o, middleware (config_with (permissions_on None None))
         (directusAuth (backend_serving (user_with_role (JsString "editor"))))
         (page "/desk" (AuthObject (role_meta (Some ["admin"; "editor"]) (Some ["banned"]))))
         (page "/" AuthUndefined) initial_world
       = (Normal o, set_wsConnects 1 (signed_in (user_with_role (JsString "editor")))) ∧
       o = Allow.
Proof.
  destruct (allow_list_then_deny_list (config_with (permissions_on None None))
    (permissions_on None None)
    (directusAuth (backend_serving (user_with_role (JsString "editor"))))
    (page "/desk" (AuthObject (role_meta (Some ["admin"; "editor"]) (Some ["banned"]))))
    (page "/" AuthUndefined)
    (Some (role_meta (Some ["admin"; "editor"]) (Some ["banned"])))
    ["admin"; "editor"] ["banned"] [RoleName "editor"] (user_with_role (JsString "editor"))
    (ReturnedMe (user_with_role (JsString "editor"))) initial_world
    (set_wsConnects 1 (signed_in (user_with_role (JsString "editor"))))
    (set_wsConnects 1 (signed_in (user_with_role (JsString "editor"))))
    eq_refl eq_refl eq_refl eq_refl eq_refl eq_refl eq_refl eq_refl eq_refl eq_refl eq_refl)
    as (o & Hm & Hiff & _).
  exists o. split; [exact Hm|]. apply Hiff. split.
  - right. exists "editor". split; [apply includes_elem_of | apply roles_include_elem_of];
      reflexivity.
  - intros (x & Hx & Hb). apply list_elem_of_singleton in Hx as [= ->].
    apply includes_elem_of in Hb. discriminate.
Defined.

(** C1, as stated, fails: with [roles: ["admin"]] and [excludeRoles: ["admin"]]
    on the same route, a user whose roles resolve to [["admin"]] passes the
    allow-list and is then stopped by the deny-list; the outcome is a redirect
    to [/], not Allow. *)
Lemma deny_list_consulted_counterexample :
  fst (resolve_roles guard_tag (permissions_on None None)
         (user_with_role (JsString "admin"))
         (signed_in (user_with_role (JsString "admin")))) = Normal [RoleName "admin"] ∧
  fst (middleware (config_with (permissions_on None None))
         (directusAuth (backend_serving (user_with_role (JsString "admin"))))
         admin_page (page "/" AuthUndefined) initial_world) = Normal (Redirect "/") ∧
  Redirect "/" ≠ Allow.
Proof. split; [reflexivity|]. split; [reflexivity | discriminate]. Qed.

(** C2, as the code has it. On a guarded route (authentication required,
    path not starting with the login or register path):
    - a failed re-validation does not reach the [catch] block, because
      [checkAuthStatus] reports the failure by returning [false]: the guard
      goes on as for any unauthenticated session, allowing an
      unauthenticated-only route, and otherwise remembering the requested
      location and redirecting to the route's [navigateUnauthenticatedTo]
      when declared, else to the login path;
    - only when the session check itself throws does the guard log the error,
      remember the requested location, and redirect to the login path,
      whatever the route declares. *)
Theorem failed_validation_is_unauthenticated
    (config : RuntimeConfig) (to from : Route) (authMeta : option AuthMeta) (w : World) :
  is_auth_page config (path to) = false →
  resolve_auth_meta config (meta_auth to) = (true, authMeta) →
  (∀ backend e, request_readMe backend = Throw e →
     middleware config (directusAuth backend) to from w =
     if opt_true (authMeta ≫= unauthenticatedOnly)
     then (Normal Allow, set_currentUser None (set_isAuthenticatedState false w))
     else (Normal (Redirect (opt_or (authMeta ≫= navigateUnauthenticatedTo)
                               (login_path config))),
           set_redirectCookie (fullPath to)
             (set_currentUser None (set_isAuthenticatedState false w)))) ∧
  (∀ plugin e w1, plugin_checkAuthStatus plugin w = (Throw e, w1) →
     middleware config plugin to from w =
     (Normal (Redirect (login_path config)),
      set_redirectCookie (fullPath to) (add_consoleError guard_error_line w1))).
Proof.
  intros Hpage Hmeta. split.
  - intros backend e Hfail.
    rewrite (middleware_protected _ _ _ _ _ _ Hpage Hmeta). simpl.
    rewrite checkAuthStatus_run. unfold after_check. rewrite Hfail.
    by rewrite decide_access_unauthenticated.
  - intros plugin e w1 Hthrow.
    by rewrite (middleware_protected _ _ _ _ _ _ Hpage Hmeta), Hthrow.
Qed.

Lemma failed_validation_is_unauthenticated_witness :
  middleware module_defaults (directusAuth backend_rejecting)
    (page "/dashboard" (AuthObject welcome_first)) (page "/" AuthUndefined) initial_world
  = (Normal (Redirect "/welcome"), set_redirectCookie "/dashboard" initial_world) ∧
  middleware module_defaults broken_plugin
    (page "/dashboard" (AuthObject welcome_first)) (page "/" AuthUndefined) initial_world
  = (Normal (Redirect "/auth/login"),
     set_redirectCookie "/dashboard" (add_consoleError guard_error_line initial_world)).
Proof.
  pose proof (failed_validation_is_unauthenticated module_defaults
    (page "/dashboard" (AuthObject welcome_first)) (page "/" AuthUndefined)
    (Some welcome_first) initial_world eq_refl eq_refl) as [Hfail Hthrow].
  split.
  - exact (Hfail backend_rejecting {| message := "401" |} eq_refl).
  - exact (Hthrow broken_plugin {| message := "checkAuthStatus is not a function" |}
             initial_world eq_refl).
Defined.

(** C2, as stated, fails: when the re-validation fails on a route that
    declares [navigateUnauthenticatedTo: "/welcome"], the outcome is a
    redirect to [/welcome], not to the login path [/auth/login]. *)
Lemma failed_validation_custom_redirect_counterexample :
  checkAuthStatus backend_rejecting initial_world
    = (Normal ReturnedFalse, initial_world) ∧
  fst (middleware module_defaults (directusAuth backend_rejecting)
         (page "/dashboard" (AuthObject welcome_first)) (page "/" AuthUndefined)
         initial_world) = Normal (Redirect "/welcome") ∧
  Redirect "/welcome" ≠ Redirect (login_path module_defaults).
Proof. split; [reflexivity|]. split; [reflexivity | discriminate]. Qed.

(** ** The composable: [login] *)

(** C10. Every login call whose credentials the backend accepts completes
    normally, and by itself, without any help from the route middleware, it
    navigates once, to the remembered location when the redirect cookie is
    non-empty, and otherwise to [afterLoginPath] ([/] when the configuration
    gives none); when it returns, the cookie is empty. The page the user was
    on is no input of [login]. *)
Theorem login_consumes_redirect
    (config : RuntimeConfig) (backend : Backend) (credentials : LoginCredentials) (w : World) :
  client_login backend (email credentials) (password credentials) (login_otp credentials)
    = Normal tt →
  ∃ target w',
    login config backend (directusAuth backend) credentials w = (Normal (currentUser w'), w') ∧
    navigated w' = (navigated w ++ [target])%list ∧
    redirectCookie w' = "" ∧
    (redirectCookie w ≠ "" → target = redirectCookie w) ∧
    (redirectCookie w = "" →
       (∀ a, config_auth config = Some a → afterLoginPath a ≠ "" → target = afterLoginPath a) ∧
       (∀ a, config_auth config = Some a → afterLoginPath a = "" → target = "/") ∧
       (config_auth config = None → target = "/")).
Proof.
  intros Hlogin.
  set (target := str_or (redirectCookie w) (opt_or (afterLoginPath <$> config_auth config) "/")).
  assert (Hremembered : redirectCookie w ≠ "" → target = redirectCookie w).
  { intros Hc. by apply str_or_truthy. }
  assert (Hdefault : redirectCookie w = "" →
    (∀ a, config_auth config = Some a → afterLoginPath a ≠ "" → target = afterLoginPath a) ∧
    (∀ a, config_auth config = Some a → afterLoginPath a = "" → target = "/") ∧
    (config_auth config = None → target = "/")).
  { intros Hc.
    assert (target = opt_or (afterLoginPath <$> config_auth config) "/") as ->
      by (unfold target; by rewrite Hc).
    split; [|split].
    - intros a -> Ha. by apply opt_or_declared.
    - intros a -> Ha. simpl. by rewrite Ha.
    - by intros ->. }
  exists target.
  unfold login. run. rewrite Hlogin. simpl.
  rewrite checkAuthStatus_run.
  set (w1 := set_error None (set_isLoading true w)).
  assert (Hcookie : redirectCookie (after_check backend w1) = redirectCookie w)
    by (by rewrite after_check_cookie).
  assert (Hnav : navigated (after_check backend w1) = navigated w)
    by (by rewrite after_check_navigated).
  unfold initializeWebSocket. run.
  destruct (negb (isWebSocketConnected (after_check backend w1)));
    [destruct (negb (import_meta_client backend))|]; simpl; rewrite Hcookie.
  all: match goal with |- ∃ w', (_, ?W) = _ ∧ _ => exists W end.
  all: split; [reflexivity|]; simpl; rewrite Hnav; done.
Qed.

Lemma login_consumes_redirect_witness :
  ∃ w', login module_defaults (backend_serving (user_with_role JsNull))
          (directusAuth (backend_serving (user_with_role JsNull)))
          {| email := "u1@example.org"; password := "secret"; otp := None |}
          (set_redirectCookie "/dashboard" initial_world)
        = (Normal (currentUser w'), w') ∧
        navigated w' = ["/dashboard"] ∧ redirectCookie w' = "".
Proof.
  destruct (login_consumes_redirect module_defaults (backend_serving (user_with_role JsNull))
    {| email := "u1@example.org"; password := "secret"; otp := None |}
    (set_redirectCookie "/dashboard" initial_world) eq_refl)
    as (target & w' & Hrun & Hnav & Hcookie & Hremembered & _).
  exists w'. split; [exact Hrun|]. split; [|exact Hcookie].
  rewrite Hnav, Hremembered; [reflexivity | discriminate].
Defined.

(** * Further properties *)

(** ** The request frame of the composable *)

Lemma with_loading_run {A : Type} (fallback : string) (body : M A) (w : World) :
  with_loading fallback body w =
  match body (set_error None (set_isLoading true w)) with
  | (Normal a, w') => (Normal a, set_isLoading false w')
  | (Throw e, w') =>
      (Throw e, set_isLoading false (set_error (Some (str_or (message e) fallback)) w'))
  end.
Proof.
  unfold with_loading. run.
  by destruct (body (set_error None (set_isLoading true w))) as [[a|e] w'].
Qed.

(** A body that is one request and a constant answer. *)
Lemma with_loading_request {A B : Type} (fallback : string) (c : Completion A) (b : B)
    (w : World) :
  with_loading fallback (await c;; mret b) w =
  match c with
  | Normal _ => (Normal b, set_isLoading false (set_error None (set_isLoading true w)))
  | Throw e =>
      (Throw e,
       set_isLoading false
         (set_error (Some (str_or (message e) fallback))
            (set_error None (set_isLoading true w))))
  end.
Proof. rewrite with_loading_run. run. by destruct c. Qed.

(** [login] is an instance of the frame. *)
Lemma login_frame (config : RuntimeConfig) (backend : Backend) (plugin : DirectusAuthPlugin)
    (credentials : LoginCredentials) :
  login config backend plugin credentials =
  with_loading "Login failed"
    (await (client_login backend (email credentials) (password credentials)
              (login_otp credentials));;
     plugin_checkAuthStatus plugin;;
     connected ← gets isWebSocketConnected;
     (if negb connected then initializeWebSocket backend else mret tt);;
     cookie ← gets redirectCookie;
     modify (set_redirectCookie "");;
     navigateTo (str_or cookie (opt_or (afterLoginPath <$> config_auth config) "/"));;
     gets currentUser).
Proof. reflexivity. Qed.

(** X1. A login the backend rejects throws the backend's error on to the
    caller and records its message (or ["Login failed"]) in [error]; it ends
    with [isLoading] false, does not navigate, leaves the session as it was,
    and keeps the remembered destination in the redirect cookie for the next
    attempt. The session check is never reached, whatever plugin is
    installed. *)
Theorem login_failure_keeps_destination
    (config : RuntimeConfig) (backend : Backend) (plugin : DirectusAuthPlugin)
    (credentials : LoginCredentials) (e : JsError) (w : World) :
  client_login backend (email credentials) (password credentials) (login_otp credentials)
    = Throw e →
  ∃ w',
    login config backend plugin credentials w = (Throw e, w') ∧
    error w' = Some (str_or (message e) "Login failed") ∧
    isLoading w' = false ∧
    navigated w' = navigated w ∧
    redirectCookie w' = redirectCookie w ∧
    isAuthenticatedState w' = isAuthenticatedState w ∧
    currentUser w' = currentUser w ∧
    wsConnects w' = wsConnects w.
Proof.
  intros Hlogin. rewrite login_frame, with_loading_run. run. rewrite Hlogin.
  eexists. split; [reflexivity|]. done.
Qed.

Lemma login_failure_keeps_destination_witness :
  ∃ w',
    login module_defaults backend_rejecting (directusAuth backend_rejecting)
      {| email := "u1@example.org"; password := "wrong"; otp := None |}
      (set_redirectCookie "/dashboard" initial_world)
    = (Throw {| message := "Invalid user credentials." |}, w') ∧
    error w' = Some "Invalid user credentials." ∧
    redirectCookie w' = "/dashboard".
Proof.
  destruct (login_failure_keeps_destination module_defaults backend_rejecting
    (directusAuth backend_rejecting)
    {| email := "u1@example.org"; password := "wrong"; otp := None |}
    {| message := "Invalid user credentials." |}
    (set_redirectCookie "/dashboard" initial_world) eq_refl)
    as (w' & Hrun & Herr & _ & _ & Hcookie & _).
  exists w'. split; [exact Hrun|]. split; [exact Herr | exact Hcookie].
Defined.

Lemma after_check_frame (backend : Backend) (w : World) :
  isLoading (after_check backend w) = isLoading w ∧
  error (after_check backend w) = error w ∧
  consoleErrors (after_check backend w) = consoleErrors w.
Proof.
  unfold after_check. destruct (request_readMe backend); simpl; [|done].
  by destruct (negb _ && _).
Qed.

(** X2. The account requests that involve no session ([register],
    [verifyEmail], [requestPasswordReset], [resetPassword], [updatePassword],
    [generateTwoFactorSecret]) never sign anybody in or out, never navigate
    and never touch the redirect cookie; they end with [isLoading] false,
    return [true] (the secret, for the last one) with [error] cleared when
    the request completes, and otherwise rethrow the request's error after
    storing its message, or the function's own fallback text, in [error].
    The verification and reset URLs default to pages under the current
    origin, and [updatePassword] sends the new password only. *)
Theorem account_requests_settle (sdk : DirectusSdk) (w : World) :
  (∀ verificationUrl origin data,
     request_settled "Registration failed"
       (request_registerUser sdk data (opt_or verificationUrl (origin ++ "/auth/verify-email")))
       (λ _, true) w (register sdk verificationUrl origin data w)) ∧
  (∀ token,
     request_settled "Email verification failed"
       (request_registerUserVerify sdk token) (λ _, true) w (verifyEmail sdk token w)) ∧
  (∀ resetPasswordUrl origin mail,
     request_settled "Password reset request failed"
       (request_passwordRequest sdk mail
          (opt_or resetPasswordUrl (origin ++ "/auth/reset-password")))
       (λ _, true) w (requestPasswordReset sdk resetPasswordUrl origin mail w)) ∧
  (∀ token newPassword,
     request_settled "Password reset failed"
       (request_passwordReset sdk token newPassword) (λ _, true) w
       (resetPassword sdk token newPassword w)) ∧
  (∀ currentPassword newPassword,
     request_settled "Password update failed"
       (request_updateMe sdk newPassword) (λ _, true) w
       (updatePassword sdk currentPassword newPassword w)) ∧
  (∀ pw,
     request_settled "Failed to generate 2FA secret"
       (request_tfa_generate sdk pw) id w (generateTwoFactorSecret sdk pw w)).
Proof.
  repeat split.
  all: intros; unfold request_settled, same_session, register, verifyEmail,
    requestPasswordReset, resetPassword, updatePassword, generateTwoFactorSecret.
  all: try rewrite with_loading_request.
  all: try (rewrite with_loading_run; run).
  all: repeat case_match; simplify_eq; done.
Qed.

(** X3. [fetchUser], with the plugin of [directus.ts], never throws and never
    sets [error]: when the backend rejects the request it returns [null] and
    leaves the session signed out; when the backend answers it returns the
    user record and the session holds it. *)
Theorem fetchUser_never_fails (backend : Backend) (w : World) :
  ∃ w',
    fetchUser (directusAuth backend) w = (Normal (currentUser w'), w') ∧
    currentUser w' = match request_readMe backend with
                     | Normal me => Some me
                     | Throw _ => None
                     end ∧
    (isAuthenticatedState w' = true ↔ is_Some (currentUser w')) ∧
    error w' = None ∧
    isLoading w' = false ∧
    redirectCookie w' = redirectCookie w ∧
    navigated w' = navigated w.
Proof.
  unfold fetchUser. rewrite with_loading_run. run. simpl.
  rewrite checkAuthStatus_run.
  set (w1 := set_error None (set_isLoading true w)).
  pose proof (after_check_frame backend w1) as (_ & Herr & _).
  exists (set_isLoading false (after_check backend w1)).
  split; [reflexivity|]. simpl.
  rewrite after_check_user, after_check_authenticated, after_check_cookie,
    after_check_navigated, Herr.
  destruct (request_readMe backend); repeat split; try done.
  all: first [by eexists | by intros [? ?]].
Qed.

(** X4. [refreshToken], [enableTwoFactor] and [disableTwoFactor], with the
    plugin of [directus.ts], check the session only after their request went
    through: a failed request is rethrown with its message stored in [error]
    and leaves the session exactly as it was, a completed one returns [true]
    and leaves the session as the backend answers the check. In both cases
    [isLoading] ends false and nothing navigates. *)
Theorem session_rechecked_only_after_success
    (sdk : DirectusSdk) (backend : Backend) (w : World) :
  recheck_settled "Token refresh failed" (request_refresh sdk) backend w
    (refreshToken sdk (directusAuth backend) w) ∧
  (∀ secret code,
     recheck_settled "Failed to enable 2FA" (request_tfa_enable sdk secret code) backend w
       (enableTwoFactor sdk (directusAuth backend) secret code w)) ∧
  (∀ code,
     recheck_settled "Failed to disable 2FA" (request_tfa_disable sdk code) backend w
       (disableTwoFactor sdk (directusAuth backend) code w)).
Proof.
  assert (Hgen : ∀ fallback c,
    recheck_settled fallback c backend w
      (with_loading fallback
         (await c;; plugin_checkAuthStatus (directusAuth backend);; mret true) w)).
  { intros fallback c. unfold recheck_settled. rewrite with_loading_run. run. simpl.
    destruct c as [[]|e]; [|done].
    rewrite checkAuthStatus_run. simpl.
    set (w1 := set_error None (set_isLoading true w)).
    pose proof (after_check_frame backend w1) as (_ & Herr & _).
    rewrite after_check_user, after_check_authenticated, after_check_cookie,
      after_check_navigated, Herr.
    by destruct (request_readMe backend). }
  split; [apply Hgen|]. split; intros; apply Hgen.
Qed.

(** ** [logout] *)

(** Unfold the plumbing of [MB]. *)
Ltac runB :=
  cbv [mbind MB_bind mret MB_ret try_catchB try_finallyB modifyB in_world
       getRefreshToken] in *.

Lemma logout_cleanup_run (config : RuntimeConfig) (backend : Backend) (b : Browser) :
  logout_cleanup config (directusAuth backend) b =
  (Normal tt,
   {| world := add_navigated (after_logout_path config) (after_check backend (world b));
      directus_refresh_token := None;
      directus_data := None |}).
Proof.
  unfold logout_cleanup. runB. simpl. rewrite checkAuthStatus_run. reflexivity.
Qed.

(** X5. [logout], with the plugin of [directus.ts], never throws, whether or
    not the server-side logout succeeds: it always clears the refresh-token
    and data cookies, re-checks the session, navigates once to the
    after-logout path, and ends with [isLoading] false. [error] is [null]
    when the server logout went through and holds the message (or
    ["Logout failed"]) when it did not. The refresh token is passed to the
    server only when the cookie holds a non-empty one; the redirect cookie is
    not touched. *)
Theorem logout_always_cleans_up
    (config : RuntimeConfig) (sdk : DirectusSdk) (backend : Backend) (b : Browser) :
  ∃ b',
    logout config sdk (directusAuth backend) b = (Normal tt, b') ∧
    directus_refresh_token b' = None ∧
    directus_data b' = None ∧
    navigated (world b') = (navigated (world b) ++ [after_logout_path config])%list ∧
    isLoading (world b') = false ∧
    error (world b') =
      match client_logout sdk (logout_token b) with
      | Normal _ => None
      | Throw e => Some (str_or (message e) "Logout failed")
      end ∧
    (isAuthenticatedState (world b') = true ↔ is_Some (currentUser (world b'))) ∧
    currentUser (world b') =
      match request_readMe backend with
      | Normal me => Some me
      | Throw _ => None
      end ∧
    redirectCookie (world b') = redirectCookie (world b).
Proof.
  unfold logout. runB. run. simpl. unfold logout_token.
  set (sent := match directus_refresh_token b with
               | Some t => if truthy t then Some t else None
               | None => None
               end).
  destruct (client_logout sdk sent) as [[]|e]; rewrite logout_cleanup_run; simpl.
  all: eexists; split; [reflexivity|]; simpl.
  all: rewrite after_check_user, after_check_authenticated, after_check_cookie,
         after_check_navigated.
  all: match goal with
       | |- context [error (after_check ?bk ?w0)] =>
           pose proof (after_check_frame bk w0) as (_ & -> & _)
       end.
  all: destruct (request_readMe backend); repeat split; try done.
  all: first [by eexists | by intros [? ?]].
Qed.

(** ** The role helpers *)

Lemma resolve_roles_any_world (tag tag' : string) (pc : DirectusPermissionsConfig)
    (u : DirectusUser) (w w' : World) :
  fst (resolve_roles tag pc u w) = fst (resolve_roles tag' pc u w').
Proof.
  rewrite !resolve_roles_run, !apply_transform_run.
  destruct (transform pc) as [f|]; [|done]. by destruct (f (raw_role pc u) u).
Qed.

(** [userRoles] never throws. *)
Lemma userRoles_total (config : RuntimeConfig) (w : World) :
  ∃ rs w', userRoles config w = (Normal rs, w').
Proof.
  rewrite userRoles_run. destruct (currentUser w) as [u|]; [|by eexists _, _].
  destruct (config_permissions config) as [pc|]; [|by eexists _, _].
  destruct (enabled pc); [|by eexists _, _].
  destruct (resolve_roles_total "[useDirectusAuth]" pc u w) as (rs & w' & -> & _).
  by eexists _, _.
Qed.

Lemma every_roles_include (a : list string) (rs : list RoleValue) :
  forallb (λ x, roles_include rs x) a = true ↔ ∀ x, x ∈ a → RoleName x ∈ rs.
Proof.
  rewrite forallb_forall. split.
  - intros H x Hx. apply roles_include_elem_of, H. by apply list_elem_of_In.
  - intros H x Hx. apply roles_include_elem_of, H. by apply list_elem_of_In.
Qed.

(** The helpers in terms of the resolved roles. *)
Lemma role_helpers_membership (config : RuntimeConfig) (w : World) :
  ∃ rs,
    fst (userRoles config w) = Normal rs ∧
    (∀ roles, fst (hasAnyRole config roles w) = Normal true
              ↔ ∃ x, x ∈ roles ∧ RoleName x ∈ rs) ∧
    (∀ roles, fst (isNotRole config roles w) = Normal true
              ↔ ¬ ∃ x, x ∈ roles ∧ RoleName x ∈ rs).
Proof.
  destruct (userRoles_total config w) as (rs & w' & Hrs).
  exists rs. split; [by rewrite Hrs|]. split; intros roles.
  - unfold hasAnyRole. destruct roles as [|r0 roles'].
    + simpl. split; [done|]. intros (x & Hx & _). by apply elem_of_nil in Hx.
    + run. rewrite Hrs. cbn [fst]. rewrite <- some_roles_include. split; [|by intros ->].
      intros H. by injection H.
  - unfold isNotRole. destruct roles as [|r0 roles'].
    + simpl. split; [|done]. intros _ (x & Hx & _). by apply elem_of_nil in Hx.
    + run. rewrite Hrs. cbn [fst]. rewrite <- some_roles_include, not_true_iff_false.
      rewrite <- negb_true_iff. split; [|by intros ->].
      intros H. by injection H.
Qed.

(** X6. The role helpers never throw and decide membership in the user's
    resolved roles: [hasRole] is true exactly when the role is one of them,
    [hasAnyRole] exactly when the list shares a role with them, [hasAllRoles]
    exactly when every listed role is one of them, and [isNotRole] is always
    the negation of [hasAnyRole]. *)
Theorem role_helpers_decide_membership (config : RuntimeConfig) (w : World) :
  ∃ rs,
    fst (userRoles config w) = Normal rs ∧
    (∀ r, ∃ b, fst (hasRole config r w) = Normal b ∧ (b = true ↔ RoleName r ∈ rs)) ∧
    (∀ roles, ∃ b,
       fst (hasAnyRole config roles w) = Normal b ∧
       (b = true ↔ ∃ x, x ∈ roles ∧ RoleName x ∈ rs) ∧
       fst (isNotRole config roles w) = Normal (negb b)) ∧
    (∀ roles, ∃ b,
       fst (hasAllRoles config roles w) = Normal b ∧
       (b = true ↔ ∀ x, x ∈ roles → RoleName x ∈ rs)).
Proof.
  destruct (userRoles_total config w) as (rs & w' & Hrs).
  exists rs. split; [by rewrite Hrs|]. split; [|split].
  - intros r. exists (roles_include rs r). split; [|apply roles_include_elem_of].
    unfold hasRole. run. by rewrite Hrs.
  - intros roles. exists (existsb (λ role, roles_include rs role) roles).
    split; [|split; [apply some_roles_include|]].
    + unfold hasAnyRole. destruct roles; [done|]. run. by rewrite Hrs.
    + unfold isNotRole. destruct roles; [done|]. run. by rewrite Hrs.
  - intros roles. exists (forallb (λ role, roles_include rs role) roles).
    split; [|apply every_roles_include].
    unfold hasAllRoles. destruct roles; [done|]. run. by rewrite Hrs.
Qed.

(** X7. Without a signed-in user, or with permissions not enabled, nobody has
    a role: [userRoles] is empty and [userRole] is [null]; [hasRole] and
    [hasAnyRole] are false for every argument, [isNotRole] is true for every
    list, and [hasAllRoles] is true for the empty list only. None of them
    logs or changes anything. *)
Theorem no_roles_without_user_or_permissions (config : RuntimeConfig) (w : World) :
  currentUser w = None ∨ permissions_enabled config = false →
  userRoles config w = (Normal [], w) ∧
  userRole config w = (Normal None, w) ∧
  (∀ r, hasRole config r w = (Normal false, w)) ∧
  (∀ roles, hasAnyRole config roles w = (Normal false, w)) ∧
  (∀ roles, isNotRole config roles w = (Normal true, w)) ∧
  (∀ roles, hasAllRoles config roles w = (Normal (bool_decide (roles = [])), w)).
Proof.
  intros Hnone.
  assert (Hrs : userRoles config w = (Normal [], w)).
  { rewrite userRoles_run. unfold permissions_enabled in Hnone.
    destruct (currentUser w); [|done].
    destruct (config_permissions config) as [pc|]; [|done].
    destruct Hnone as [? | ->]; done. }
  split; [done|]. split; [by rewrite userRole_run, Hrs|].
  split; [|split; [|split]].
  - intros r. unfold hasRole. run. by rewrite Hrs.
  - intros roles. unfold hasAnyRole. destruct roles as [|r roles]; [done|].
    run. rewrite Hrs. f_equal. f_equal.
    apply not_true_iff_false. rewrite some_roles_include. intros (x & _ & Hx).
    by apply elem_of_nil in Hx.
  - intros roles. unfold isNotRole. destruct roles as [|r roles]; [done|].
    run. rewrite Hrs. f_equal. f_equal. apply negb_true_iff.
    apply not_true_iff_false. rewrite some_roles_include. intros (x & _ & Hx).
    by apply elem_of_nil in Hx.
  - intros roles. unfold hasAllRoles. destruct roles as [|r roles]; [done|].
    run. by rewrite Hrs.
Qed.

Lemma no_roles_without_user_or_permissions_witness :
  hasAnyRole module_defaults ["admin"] (signed_in (user_with_role (JsString "admin")))
    = (Normal false, signed_in (user_with_role (JsString "admin"))) ∧
  isNotRole module_defaults ["banned"] initial_world = (Normal true, initial_world).
Proof.
  split.
  - exact (proj1 (proj2 (proj2 (proj2 (no_roles_without_user_or_permissions module_defaults
      (signed_in (user_with_role (JsString "admin"))) (or_intror eq_refl))))) ["admin"]).
  - exact (proj1 (proj2 (proj2 (proj2 (proj2 (no_roles_without_user_or_permissions
      module_defaults initial_world (or_introl eq_refl)))))) ["banned"]).
Defined.

(** ** More on the route middleware *)

Lemma allow_list_passes_opt (o : option (list string)) (rs : list RoleValue) :
  nonempty_array o
    && negb (existsb (λ requiredRole, roles_include rs requiredRole) (default [] o)) = false
  ↔ default [] o = [] ∨ ∃ x, x ∈ default [] o ∧ RoleName x ∈ rs.
Proof.
  destruct o as [allowed|]; [apply allow_list_passes|]. simpl. split; [by left | done].
Qed.

Lemma deny_list_hits_opt (o : option (list string)) (rs : list RoleValue) :
  nonempty_array o && existsb (λ role, includes_role (default [] o) role) rs = true
  ↔ ∃ x, RoleName x ∈ rs ∧ x ∈ default [] o.
Proof.
  destruct o as [denied|]; [apply deny_list_hits|]. simpl. split; [done|].
  intros (x & _ & Hx). by apply elem_of_nil in Hx.
Qed.

(** The outcome of the role block when it runs, in terms of the two lists
    (an undeclared list counts as empty). *)
Lemma role_checks_outcome (config : RuntimeConfig) (pc : DirectusPermissionsConfig)
    (authMeta : option AuthMeta) (u : DirectusUser) (rs : list RoleValue) (w w' : World) :
  config_permissions config = Some pc →
  enabled pc = true →
  is_Some (authMeta ≫= roles) ∨ is_Some (authMeta ≫= excludeRoles) →
  currentUser w = Some u →
  resolve_roles guard_tag pc u w = (Normal rs, w') →
  ∃ o,
    role_checks config authMeta w = (Normal o, w') ∧
    (o = Allow ↔
       (default [] (authMeta ≫= roles) = []
        ∨ ∃ x, x ∈ default [] (authMeta ≫= roles) ∧ RoleName x ∈ rs)
       ∧ ¬ (∃ x, RoleName x ∈ rs ∧ x ∈ default [] (authMeta ≫= excludeRoles))) ∧
    (o = Allow ∨ o = Redirect (unauthorized_target authMeta)).
Proof.
  intros Hpc Hen Hdecl Hu Hrs.
  rewrite (role_checks_active config pc authMeta u rs w w' Hpc Hen Hdecl Hu Hrs).
  eexists. split; [done|].
  pose proof (allow_list_passes_opt (authMeta ≫= roles) rs) as Hallow.
  pose proof (deny_list_hits_opt (authMeta ≫= excludeRoles) rs) as Hdeny.
  destruct (nonempty_array (authMeta ≫= roles) && _).
  - split; [|by right]. split; [done|]. intros [Hyes _]. by apply Hallow in Hyes.
  - destruct (nonempty_array (authMeta ≫= excludeRoles) && _).
    + split; [|by right]. split; [done|]. intros [_ Hno]. destruct Hno. by apply Hdeny.
    + split; [|by left]. split; [|done]. intros _. split; [by apply Hallow|].
      intros Hhit. by apply Hdeny in Hhit.
Qed.

(** X8. On a guarded route with permissions enabled and a signed-in user whose
    roles resolve to [rs], whichever of [roles] and [excludeRoles] the route
    declares: the outcome is Allow exactly when [rs] meets [roles] (or
    [roles] is absent or empty) and [rs] meets nothing in [excludeRoles];
    otherwise it is a redirect to [unauthorizedRedirect], or [/]. So a route
    with only a deny-list admits every user outside it, also a user with no
    role at all, and a route with only an allow-list rejects a user with no
    role. *)
Theorem role_lists_outcome
    (config : RuntimeConfig) (pc : DirectusPermissionsConfig)
    (plugin : DirectusAuthPlugin) (to from : Route) (authMeta : option AuthMeta)
    (rs : list RoleValue) (u : DirectusUser) (r : CheckResult) (w w1 w2 : World) :
  is_auth_page config (path to) = false →
  resolve_auth_meta config (meta_auth to) = (true, authMeta) →
  opt_true (authMeta ≫= unauthenticatedOnly) = false →
  is_Some (authMeta ≫= roles) ∨ is_Some (authMeta ≫= excludeRoles) →
  config_permissions config = Some pc →
  enabled pc = true →
  plugin_checkAuthStatus plugin w = (Normal r, w1) →
  isAuthenticatedState w1 = true →
  currentUser w1 = Some u →
  resolve_roles guard_tag pc u w1 = (Normal rs, w2) →
  ∃ o,
    middleware config plugin to from w = (Normal o, w2) ∧
    (o = Allow ↔
       (default [] (authMeta ≫= roles) = []
        ∨ ∃ x, x ∈ default [] (authMeta ≫= roles) ∧ RoleName x ∈ rs)
       ∧ ¬ (∃ x, RoleName x ∈ rs ∧ x ∈ default [] (authMeta ≫= excludeRoles))) ∧
    (o = Allow ∨ o = Redirect (unauthorized_target authMeta)) ∧
    (rs = [] → default [] (authMeta ≫= roles) ≠ [] → o ≠ Allow) ∧
    (rs = [] → default [] (authMeta ≫= roles) = [] → o = Allow).
Proof.
  intros Hpage Hmeta Honly Hdecl Hpc Hen Hcheck Hauth Hu Hrs.
  rewrite (middleware_protected _ _ _ _ _ _ Hpage Hmeta), Hcheck.
  rewrite decide_access_authenticated, Honly by done.
  destruct (role_checks_outcome config pc authMeta u rs w1 w2 Hpc Hen Hdecl Hu Hrs)
    as (o & Ho & Hiff & Hcases).
  exists o. split; [done|]. split; [done|]. split; [done|]. split.
  - intros -> Hne Hallow. apply Hiff in Hallow as [[? | (x & _ & Hx)] _]; [done|].
    by apply elem_of_nil in Hx.
  - intros -> Hempty. apply Hiff. split; [by left|].
    intros (x & Hx & _). by apply elem_of_nil in Hx.
Qed.

Lemma role_lists_outcome_witness :
  ∃ o, middleware (config_with (permissions_on None None))
         (directusAuth (backend_serving (user_with_role JsNull)))
         (page "/forum" (AuthObject (role_meta None (Some ["banned"]))))
         (page "/" AuthUndefined) initial_world
       = (Normal o, set_wsConnects 1 (signed_in (user_with_role JsNull))) ∧
       o = Allow.
Proof.
  destruct (role_lists_outcome (config_with (permissions_on None None))
    (permissions_on None None)
    (directusAuth (backend_serving (user_with_role JsNull)))
    (page "/forum" (AuthObject (role_meta None (Some ["banned"]))))
    (page "/" AuthUndefined)
    (Some (role_meta None (Some ["banned"])))
    [] (user_with_role JsNull) (ReturnedMe (user_with_role JsNull)) initial_world
    (set_wsConnects 1 (signed_in (user_with_role JsNull)))
    (set_wsConnects 1 (signed_in (user_with_role JsNull)))
    eq_refl eq_refl eq_refl (or_intror (ex_intro _ ["banned"] eq_refl))
    eq_refl eq_refl eq_refl eq_refl eq_refl eq_refl)
    as (o & Hm & _ & _ & _ & Hempty).
  exists o. split; [exact Hm | exact (Hempty eq_refl eq_refl)].
Defined.

(** X9. The guard and the role helpers of the composable agree: on a guarded
    route with permissions enabled and a signed-in user, the outcome is Allow
    exactly when [hasAnyRole(roles)] holds (or [roles] is absent or empty)
    and [isNotRole(excludeRoles)] holds, both read in the world the session
    check left. *)
Theorem guard_agrees_with_role_helpers
    (config : RuntimeConfig) (pc : DirectusPermissionsConfig)
    (plugin : DirectusAuthPlugin) (to from : Route) (authMeta : option AuthMeta)
    (u : DirectusUser) (r : CheckResult) (w w1 : World) :
  is_auth_page config (path to) = false →
  resolve_auth_meta config (meta_auth to) = (true, authMeta) →
  opt_true (authMeta ≫= unauthenticatedOnly) = false →
  is_Some (authMeta ≫= roles) ∨ is_Some (authMeta ≫= excludeRoles) →
  config_permissions config = Some pc →
  enabled pc = true →
  plugin_checkAuthStatus plugin w = (Normal r, w1) →
  isAuthenticatedState w1 = true →
  currentUser w1 = Some u →
  fst (middleware config plugin to from w) = Normal Allow ↔
    (default [] (authMeta ≫= roles) = []
     ∨ fst (hasAnyRole config (default [] (authMeta ≫= roles)) w1) = Normal true)
    ∧ fst (isNotRole config (default [] (authMeta ≫= excludeRoles)) w1) = Normal true.
Proof.
  intros Hpage Hmeta Honly Hdecl Hpc Hen Hcheck Hauth Hu.
  rewrite (middleware_protected _ _ _ _ _ _ Hpage Hmeta), Hcheck.
  rewrite decide_access_authenticated, Honly by done.
  destruct (resolve_roles_total guard_tag pc u w1) as (rs & w2 & Hrs & _).
  destruct (role_checks_outcome config pc authMeta u rs w1 w2 Hpc Hen Hdecl Hu Hrs)
    as (o & -> & Hiff & _). simpl.
  destruct (role_helpers_membership config w1) as (rs' & Hrs' & Hany & Hnot).
  assert (rs' = rs) as ->.
  { rewrite userRoles_run, Hu, Hpc, Hen in Hrs'.
    rewrite (resolve_roles_any_world _ guard_tag _ _ _ w1), Hrs in Hrs'.
    by injection Hrs'. }
  rewrite Hany, Hnot. split.
  - intros Ho. injection Ho as ->. destruct (proj1 Hiff eq_refl) as [Ha Hd].
    split; [done|]. intros (x & Hx & Hr). apply Hd. by exists x.
  - intros [Ha Hd]. f_equal. apply Hiff. split; [done|].
    intros (x & Hr & Hx). apply Hd. by exists x.
Qed.

Lemma guard_agrees_with_role_helpers_witness :
  fst (middleware (config_with (permissions_on None None))
         (directusAuth (backend_serving (user_with_role (JsString "editor"))))
         (page "/desk" (AuthObject (role_meta (Some ["admin"; "editor"]) (Some ["banned"]))))
         (page "/" AuthUndefined) initial_world) = Normal Allow.
Proof.
  apply (guard_agrees_with_role_helpers (config_with (permissions_on None None))
    (permissions_on None None)
    (directusAuth (backend_serving (user_with_role (JsString "editor"))))
    (page "/desk" (AuthObject (role_meta (Some ["admin"; "editor"]) (Some ["banned"]))))
    (page "/" AuthUndefined)
    (Some (role_meta (Some ["admin"; "editor"]) (Some ["banned"])))
    (user_with_role (JsString "editor"))
    (ReturnedMe (user_with_role (JsString "editor"))) initial_world
    (set_wsConnects 1 (signed_in (user_with_role (JsString "editor"))))
    eq_refl eq_refl eq_refl (or_introl (ex_intro _ ["admin"; "editor"] eq_refl))
    eq_refl eq_refl eq_refl eq_refl eq_refl).
  split; [right|]; reflexivity.
Defined.

(** A page that requires no authentication is let through untouched. *)
Lemma middleware_public (config : RuntimeConfig) (plugin : DirectusAuthPlugin)
    (to from : Route) (authMeta : option AuthMeta) (w : World) :
  resolve_auth_meta config (meta_auth to) = (false, authMeta) →
  middleware config plugin to from w = (Normal Allow, w).
Proof.
  intros Hmeta.
  destruct (is_auth_page config (path to)) eqn:Hpage; [by apply middleware_auth_page|].
  unfold middleware.
  pose proof (is_auth_page_some config (path to)) as Hsome.
  rewrite Hpage, auth_paths_eta in Hsome. by rewrite auth_paths_eta, Hmeta, <- Hsome.
Qed.

(** X10. The middleware performs no session check at all, and changes
    nothing, when the target path starts with the login or register path,
    when the page declares [auth: false], or when the page declares nothing
    and the global middleware is switched off: the outcome is Allow and the
    world is untouched, whatever the session state and even with a plugin
    whose check would throw. *)
Theorem no_session_check_when_public_or_exempt
    (config : RuntimeConfig) (plugin : DirectusAuthPlugin) (to from : Route) (w : World) :
  is_auth_page config (path to) = true
    ∨ meta_auth to = AuthBool false
    ∨ (meta_auth to = AuthUndefined ∧ global_middleware config = false) →
  middleware config plugin to from w = (Normal Allow, w).
Proof.
  intros [Hpage | [Hraw | [Hraw Hglobal]]].
  - by apply middleware_auth_page.
  - apply (middleware_public _ _ _ _ None). by rewrite Hraw.
  - apply (middleware_public _ _ _ _ None). rewrite Hraw. simpl. by rewrite Hglobal.
Qed.

Lemma no_session_check_when_public_or_exempt_witness :
  middleware module_defaults broken_plugin (page "/about" (AuthBool false))
    (page "/" AuthUndefined) initial_world = (Normal Allow, initial_world).
Proof.
  exact (no_session_check_when_public_or_exempt module_defaults broken_plugin
    (page "/about" (AuthBool false)) (page "/" AuthUndefined) initial_world
    (or_intror (or_introl eq_refl))).
Defined.

(** The role block leaves session, cookie and navigation history alone. *)
Lemma role_checks_session (config : RuntimeConfig) (authMeta : option AuthMeta) (w : World) :
  ∃ o w', role_checks config authMeta w = (Normal o, w') ∧
          isAuthenticatedState w' = isAuthenticatedState w ∧
          currentUser w' = currentUser w ∧
          redirectCookie w' = redirectCookie w.
Proof.
  destruct (decide (permissions_enabled config = false ∨ currentUser w = None
                    ∨ (authMeta ≫= roles = None ∧ authMeta ≫= excludeRoles = None)))
    as [Hskip|Hrun].
  { exists Allow, w. split; [by apply role_checks_skipped | done]. }
  unfold permissions_enabled in Hrun.
  destruct (config_permissions config) as [pc|] eqn:Hpc; [|destruct Hrun; by left].
  destruct (enabled pc) eqn:Hen; [|destruct Hrun; by left].
  destruct (currentUser w) as [u|] eqn:Hu; [|destruct Hrun; right; by left].
  assert (Hdecl : is_Some (authMeta ≫= roles) ∨ is_Some (authMeta ≫= excludeRoles)).
  { destruct (authMeta ≫= roles); [left; by eexists|].
    destruct (authMeta ≫= excludeRoles); [right; by eexists|].
    destruct Hrun. right; by right. }
  destruct (resolve_roles_total guard_tag pc u w) as (rs & w' & Hrs & Ha & Hc & Hk).
  eexists _, w'. split; [|by rewrite Ha, Hc, Hk, Hu].
  exact (role_checks_active config pc authMeta u rs w w' Hpc Hen Hdecl Hu Hrs).
Qed.

(** X11. With the plugin of [directus.ts], one run of the middleware either
    leaves the redirect cookie as it was, or stores the requested location,
    which then belongs to a path that starts with neither the login nor the
    register path and the outcome is a redirect, or empties it, which
    happens only when the previous path starts with the login or register
    path and the outcome is a redirect to the location it held. *)
Theorem redirect_memory_writes
    (config : RuntimeConfig) (backend : Backend) (to from : Route) (w : World) :
  ∃ o w',
    middleware config (directusAuth backend) to from w = (Normal o, w') ∧
    (redirectCookie w' = redirectCookie w
     ∨ (redirectCookie w' = fullPath to ∧ is_auth_page config (path to) = false
        ∧ ∃ p, o = Redirect p)
     ∨ (redirectCookie w' = "" ∧ is_auth_page config (path from) = true
        ∧ o = Redirect (redirectCookie w))).
Proof.
  destruct (is_auth_page config (path to)) eqn:Hpage.
  { exists Allow, w. split; [by apply middleware_auth_page | by left]. }
  destruct (resolve_auth_meta config (meta_auth to)) as [[] authMeta] eqn:Hmeta.
  2: { exists Allow, w. split; [by apply (middleware_public _ _ _ _ authMeta) | by left]. }
  rewrite (middleware_protected _ _ _ _ _ _ Hpage Hmeta). simpl.
  rewrite checkAuthStatus_run.
  pose proof (after_check_cookie backend w) as Hcookie.
  destruct (isAuthenticatedState (after_check backend w)) eqn:Hauth.
  - rewrite decide_access_authenticated by done.
    destruct (opt_true (authMeta ≫= unauthenticatedOnly)).
    + destruct (truthy (redirectCookie (after_check backend w))
                && is_auth_page config (path from)) eqn:Huse.
      * apply andb_true_iff in Huse as [_ Hfrom].
        eexists _, _. split; [done|]. right; right. by rewrite Hcookie.
      * eexists _, _. split; [done|]. by left.
    + destruct (role_checks_session config authMeta (after_check backend w))
        as (o & w' & -> & _ & _ & Hk).
      exists o, w'. split; [done|]. left. by rewrite Hk.
  - rewrite decide_access_unauthenticated by done.
    destruct (opt_true (authMeta ≫= unauthenticatedOnly)).
    + eexists _, _. split; [done|]. by left.
    + eexists _, _. split; [done|]. right; left. split; [done|]. split; [done|].
      by eexists.
Qed.

(** X12. The middleware never writes the session by itself: after any run,
    with any plugin, [isAuthenticated] and the user record are either those
    it found (no check was made) or those the plugin's session check left. *)
Theorem guard_never_writes_session
    (config : RuntimeConfig) (plugin : DirectusAuthPlugin) (to from : Route) (w : World) :
  ∃ o w',
    middleware config plugin to from w = (Normal o, w') ∧
    ((isAuthenticatedState w' = isAuthenticatedState w ∧ currentUser w' = currentUser w)
     ∨ (isAuthenticatedState w' = isAuthenticatedState (plugin_checkAuthStatus plugin w).2
        ∧ currentUser w' = currentUser (plugin_checkAuthStatus plugin w).2)).
Proof.
  destruct (is_auth_page config (path to)) eqn:Hpage.
  { exists Allow, w. split; [by apply middleware_auth_page | by left]. }
  destruct (resolve_auth_meta config (meta_auth to)) as [[] authMeta] eqn:Hmeta.
  2: { exists Allow, w. split; [by apply (middleware_public _ _ _ _ authMeta) | by left]. }
  rewrite (middleware_protected _ _ _ _ _ _ Hpage Hmeta).
  destruct (plugin_checkAuthStatus plugin w) as [[r|e] w1]; simpl.
  2: { eexists _, _. split; [done|]. by right. }
  destruct (isAuthenticatedState w1) eqn:Hauth.
  - rewrite decide_access_authenticated by done.
    destruct (opt_true (authMeta ≫= unauthenticatedOnly)).
    + destruct (truthy (redirectCookie w1) && is_auth_page config (path from));
        eexists _, _; (split; [done|]); by right.
    + destruct (role_checks_session config authMeta w1) as (o & w' & -> & Ha & Hu & _).
      exists o, w'. split; [done|]. right. by rewrite Ha, Hu.
  - rewrite decide_access_unauthenticated by done.
    destruct (opt_true (authMeta ≫= unauthenticatedOnly));
      eexists _, _; (split; [done|]); by right.
Qed.

(** X13. A remembered destination is used once. An authenticated user who
    comes from the login or register path to an unauthenticated-only page
    (whose own path is not exempt) while the redirect cookie holds a location
    is redirected to that location and the cookie is emptied; the next such
    navigation, wherever it comes from, is redirected to the page's
    [navigateAuthenticatedTo], or to [afterLoginPath], and the cookie stays
    empty. *)
Theorem remembered_destination_used_once
    (config : RuntimeConfig) (backend : Backend) (me : DirectusUser)
    (to from from' : Route) (authMeta : option AuthMeta) (w : World) :
  request_readMe backend = Normal me →
  is_auth_page config (path to) = false →
  resolve_auth_meta config (meta_auth to) = (true, authMeta) →
  opt_true (authMeta ≫= unauthenticatedOnly) = true →
  is_auth_page config (path from) = true →
  redirectCookie w ≠ "" →
  ∃ w1 w2,
    middleware config (directusAuth backend) to from w
      = (Normal (Redirect (redirectCookie w)), w1) ∧
    redirectCookie w1 = "" ∧
    middleware config (directusAuth backend) to from' w1
      = (Normal (Redirect (opt_or (authMeta ≫= navigateAuthenticatedTo)
                             (after_login_path config))), w2) ∧
    redirectCookie w2 = "".
Proof.
  intros Hme Hpage Hmeta Honly Hfrom Hcookie.
  assert (Hauth : ∀ w0, isAuthenticatedState (after_check backend w0) = true).
  { intros w0. by rewrite after_check_authenticated, Hme. }
  rewrite !(middleware_protected _ _ _ _ _ _ Hpage Hmeta). simpl.
  rewrite checkAuthStatus_run, decide_access_authenticated, Honly by done.
  rewrite after_check_cookie, Hfrom. apply truthy_true in Hcookie. rewrite Hcookie. simpl.
  eexists _, _. split; [done|]. split; [done|].
  rewrite (middleware_protected _ _ _ _ _ _ Hpage Hmeta). simpl.
  rewrite checkAuthStatus_run, decide_access_authenticated, Honly by done.
  rewrite after_check_cookie. simpl. split; [done|]. by rewrite after_check_cookie.
Qed.

Lemma remembered_destination_used_once_witness :
  ∃ w1 w2,
    middleware module_defaults (directusAuth (backend_serving (user_with_role JsNull)))
      (page "/welcome" (AuthObject guests_only)) (page "/auth/login" AuthUndefined)
      (signed_in_remembering (user_with_role JsNull) "/dashboard")
      = (Normal (Redirect "/dashboard"), w1) ∧
    middleware module_defaults (directusAuth (backend_serving (user_with_role JsNull)))
      (page "/welcome" (AuthObject guests_only)) (page "/auth/login" AuthUndefined) w1
      = (Normal (Redirect "/"), w2).
Proof.
  destruct (remembered_destination_used_once module_defaults
    (backend_serving (user_with_role JsNull)) (user_with_role JsNull)
    (page "/welcome" (AuthObject guests_only)) (page "/auth/login" AuthUndefined)
    (page "/auth/login" AuthUndefined) (Some guests_only)
    (signed_in_remembering (user_with_role JsNull) "/dashboard")
    eq_refl eq_refl eq_refl eq_refl eq_refl) as (w1 & w2 & H1 & _ & H2 & _);
    [discriminate|].
  exists w1, w2. split; [exact H1 | exact H2].
Defined.

(** What [login] does once the backend accepts the credentials. *)
Lemma login_accepted (config : RuntimeConfig) (backend : Backend)
    (credentials : LoginCredentials) (w : World) :
  client_login backend (email credentials) (password credentials) (login_otp credentials)
    = Normal tt →
  ∃ w',
    login config backend (directusAuth backend) credentials w = (Normal (currentUser w'), w') ∧
    navigated w' = (navigated w ++ [str_or (redirectCookie w)
                                     (opt_or (afterLoginPath <$> config_auth config) "/")])%list ∧
    redirectCookie w' = "".
Proof.
  intros Hlogin. rewrite login_frame, with_loading_run. run. rewrite Hlogin. simpl.
  rewrite checkAuthStatus_run.
  set (w1 := set_error None (set_isLoading true w)).
  assert (Hcookie : redirectCookie (after_check backend w1) = redirectCookie w)
    by (by rewrite after_check_cookie).
  assert (Hnav : navigated (after_check backend w1) = navigated w)
    by (by rewrite after_check_navigated).
  unfold initializeWebSocket. run.
  destruct (negb (isWebSocketConnected (after_check backend w1)));
    [destruct (negb (import_meta_client backend))|]; simpl; rewrite Hcookie.
  all: match goal with |- ∃ w', (_, ?W) = _ ∧ _ => exists W end.
  all: split; [reflexivity|]; simpl; by rewrite Hnav.
Qed.

(** X14. The detour through the login page ends where it began. When a
    signed-out visitor requests a guarded page (not unauthenticated-only, path
    not exempt), the middleware redirects and remembers the requested
    location; a login that the backend then accepts navigates to exactly that
    location and leaves the redirect cookie empty. *)
Theorem redirect_then_login_round_trip
    (config : RuntimeConfig) (backend backend' : Backend) (e : JsError)
    (to from : Route) (authMeta : option AuthMeta)
    (credentials : LoginCredentials) (w : World) :
  request_readMe backend = Throw e →
  is_auth_page config (path to) = false →
  resolve_auth_meta config (meta_auth to) = (true, authMeta) →
  opt_true (authMeta ≫= unauthenticatedOnly) = false →
  fullPath to ≠ "" →
  client_login backend' (email credentials) (password credentials) (login_otp credentials)
    = Normal tt →
  ∃ p w1 w2,
    middleware config (directusAuth backend) to from w = (Normal (Redirect p), w1) ∧
    login config backend' (directusAuth backend') credentials w1
      = (Normal (currentUser w2), w2) ∧
    navigated w2 = (navigated w ++ [fullPath to])%list ∧
    redirectCookie w2 = "".
Proof.
  intros Hout Hpage Hmeta Honly Hfull Hlogin.
  rewrite (middleware_protected _ _ _ _ _ _ Hpage Hmeta). simpl.
  rewrite checkAuthStatus_run.
  assert (Hauth : isAuthenticatedState (after_check backend w) = false)
    by (by rewrite after_check_authenticated, Hout).
  rewrite decide_access_unauthenticated, Honly by done.
  destruct (login_accepted config backend' credentials
              (set_redirectCookie (fullPath to) (after_check backend w)) Hlogin)
    as (w2 & Hrun & Hnav & Hcookie).
  eexists _, _, w2. split; [done|]. split; [done|]. split; [|done].
  rewrite Hnav. simpl. by rewrite after_check_navigated, str_or_truthy.
Qed.

Lemma redirect_then_login_round_trip_witness :
  ∃ w1 w2,
    middleware module_defaults (directusAuth backend_rejecting) dashboard
      (page "/" AuthUndefined) initial_world = (Normal (Redirect "/auth/login"), w1) ∧
    login module_defaults (backend_serving (user_with_role JsNull))
      (directusAuth (backend_serving (user_with_role JsNull)))
      {| email := "u1@example.org"; password := "secret"; otp := None |} w1
      = (Normal (currentUser w2), w2) ∧
    navigated w2 = ["/dashboard?tab=2"].
Proof.
  destruct (redirect_then_login_round_trip module_defaults backend_rejecting
    (backend_serving (user_with_role JsNull)) {| message := "401" |} dashboard
    (page "/" AuthUndefined) (Some empty_meta)
    {| email := "u1@example.org"; password := "secret"; otp := None |} initial_world
    eq_refl eq_refl eq_refl eq_refl) as (p & w1 & w2 & Hm & Hl & Hnav & _);
    [discriminate | reflexivity |].
  injection Hm as <- <-.
  eexists _, w2. split; [reflexivity|]. split; [exact Hl | exact Hnav].
Defined.

(** X15. A guarded page that declares no role list, or only empty ones, is
    open to every authenticated user (unless it is unauthenticated-only),
    whether or not permissions are enabled and whatever roles the user has. *)
Theorem pages_without_role_lists_admit_all
    (config : RuntimeConfig) (plugin : DirectusAuthPlugin) (to from : Route)
    (authMeta : option AuthMeta) (r : CheckResult) (w w1 : World) :
  resolve_auth_meta config (meta_auth to) = (true, authMeta) →
  opt_true (authMeta ≫= unauthenticatedOnly) = false →
  nonempty_array (authMeta ≫= roles) = false →
  nonempty_array (authMeta ≫= excludeRoles) = false →
  plugin_checkAuthStatus plugin w = (Normal r, w1) →
  isAuthenticatedState w1 = true →
  fst (middleware config plugin to from w) = Normal Allow.
Proof.
  intros Hmeta Honly Hroles Hexcl Hcheck Hauth.
  destruct (is_auth_page config (path to)) eqn:Hpage;
    [by rewrite middleware_auth_page|].
  rewrite (middleware_protected _ _ _ _ _ _ Hpage Hmeta), Hcheck.
  rewrite decide_access_authenticated, Honly by done.
  unfold role_checks. destruct (config_permissions config) as [pc|]; [|done].
  destruct (enabled pc && _); [|done]. run.
  destruct (currentUser w1) as [u|]; [|done].
  destruct (resolve_roles_total guard_tag pc u w1) as (rs & w' & -> & _).
  by rewrite Hroles, Hexcl.
Qed.

Lemma pages_without_role_lists_admit_all_witness :
  fst (middleware (config_with (permissions_on None None))
         (directusAuth (backend_serving (user_with_role JsNull)))
         (page "/account" (AuthObject (role_meta (Some []) None)))
         (page "/" AuthUndefined) initial_world) = Normal Allow.
Proof.
  exact (pages_without_role_lists_admit_all (config_with (permissions_on None None))
    (directusAuth (backend_serving (user_with_role JsNull)))
    (page "/account" (AuthObject (role_meta (Some []) None))) (page "/" AuthUndefined)
    (Some (role_meta (Some []) None)) (ReturnedMe (user_with_role JsNull)) initial_world
    (set_wsConnects 1 (signed_in (user_with_role JsNull)))
    eq_refl eq_refl eq_refl eq_refl eq_refl eq_refl).
Defined.

(** ** More on the plugin *)

(** X16. A session check overwrites the session with the backend's latest
    answer, whatever it was before, and touches nothing else but the
    WebSocket: the redirect cookie, the navigation history, the console and
    the composable's [isLoading] and [error] are as before. It calls
    [connect()] once when it succeeds on the client while the socket is not
    connected, and never when it fails. *)
Theorem checkAuthStatus_last_answer_wins (backend : Backend) (w w0 : World) :
  isAuthenticatedState (checkAuthStatus backend w).2
    = isAuthenticatedState (checkAuthStatus backend w0).2 ∧
  currentUser (checkAuthStatus backend w).2 = currentUser (checkAuthStatus backend w0).2 ∧
  redirectCookie (checkAuthStatus backend w).2 = redirectCookie w ∧
  navigated (checkAuthStatus backend w).2 = navigated w ∧
  consoleErrors (checkAuthStatus backend w).2 = consoleErrors w ∧
  isLoading (checkAuthStatus backend w).2 = isLoading w ∧
  error (checkAuthStatus backend w).2 = error w ∧
  wsConnects (checkAuthStatus backend w).2 =
    match request_readMe backend with
    | Normal _ =>
        if negb (isWebSocketConnected w) && import_meta_client backend
        then S (wsConnects w) else wsConnects w
    | Throw _ => wsConnects w
    end.
Proof.
  rewrite !checkAuthStatus_run. simpl.
  rewrite !after_check_authenticated, !after_check_user, after_check_cookie,
    after_check_navigated.
  pose proof (after_check_frame backend w) as (-> & -> & ->).
  repeat split. unfold after_check.
  destruct (request_readMe backend); simpl; [|done]. by destruct (negb _ && _).
Qed.

(** X17. A login that succeeds on the client while the WebSocket is not yet
    connected calls [connect()] twice: once inside the session check and once
    more right after it, because the connected flag only changes when the
    socket's [open] event arrives. On the server, or with the socket already
    connected, it calls it not at all. *)
Theorem login_connects_twice
    (config : RuntimeConfig) (backend : Backend) (me : DirectusUser)
    (credentials : LoginCredentials) (w : World) :
  client_login backend (email credentials) (password credentials) (login_otp credentials)
    = Normal tt →
  request_readMe backend = Normal me →
  wsConnects (login config backend (directusAuth backend) credentials w).2 =
    if negb (isWebSocketConnected w) && import_meta_client backend
    then S (S (wsConnects w)) else wsConnects w.
Proof.
  intros Hlogin Hme. rewrite login_frame, with_loading_run. run. rewrite Hlogin. simpl.
  rewrite checkAuthStatus_run. unfold after_check, initializeWebSocket. rewrite Hme. run.
  destruct w as [? ? connected ? ? ? ? ? ?]. simpl.
  by destruct connected, (import_meta_client backend).
Qed.

Lemma login_connects_twice_witness :
  wsConnects (login module_defaults (backend_serving (user_with_role JsNull))
                (directusAuth (backend_serving (user_with_role JsNull)))
                {| email := "u1@example.org"; password := "secret"; otp := None |}
                initial_world).2 = 2.
Proof.
  exact (login_connects_twice module_defaults (backend_serving (user_with_role JsNull))
    (user_with_role JsNull)
    {| email := "u1@example.org"; password := "secret"; otp := None |}
    initial_world eq_refl eq_refl).
Defined.

Lemma substring_all (s : string) : String.substring 0 (String.length s) s = s.
Proof. induction s as [|c s IH]; simpl; [done | by rewrite IH]. Qed.

Lemma prefix_app (p rest : string) : String.prefix p (p ++ rest) = true.
Proof.
  induction p as [|c p IH]; simpl; [by destruct rest|].
  by destruct (Ascii.ascii_dec c c).
Qed.

Lemma substring_app (p rest : string) (n : nat) :
  String.substring (String.length p) n (p ++ rest) = String.substring 0 n rest.
Proof. induction p as [|c p IH]; simpl; [done | exact IH]. Qed.

Lemma length_app_sub (p rest : string) :
  String.length (p ++ rest) - String.length p = String.length rest.
Proof. induction p as [|c p IH]; simpl; [apply Nat.sub_0_r | exact IH]. Qed.

Lemma replace_http_prefix (rest : string) : replace_http ("http" ++ rest) = "ws" ++ rest.
Proof.
  unfold replace_http, startsWith. rewrite prefix_app.
  change 4 with (String.length "http").
  by rewrite substring_app, length_app_sub, substring_all.
Qed.

(** X18. The WebSocket URL is derived from [directusWsUrl] when that is set
    and from [directusUrl] otherwise: a leading [http] becomes [ws], so that
    [http://] turns into [ws://] and [https://] into [wss://], the rest of
    the URL is kept, and [/websocket] is appended; a base that does not start
    with [http] is kept whole. *)
Theorem wsUrl_scheme (directusWsUrl : option string) (directusUrl : string) :
  (∀ rest, opt_or directusWsUrl directusUrl = "http" ++ rest →
     wsUrl directusWsUrl directusUrl = "ws" ++ rest ++ "/websocket") ∧
  (∀ host, opt_or directusWsUrl directusUrl = "https://" ++ host →
     wsUrl directusWsUrl directusUrl = "wss://" ++ host ++ "/websocket") ∧
  (startsWith (opt_or directusWsUrl directusUrl) "http" = false →
     wsUrl directusWsUrl directusUrl = opt_or directusWsUrl directusUrl ++ "/websocket") ∧
  (∀ ws, directusWsUrl = Some ws → ws ≠ "" → opt_or directusWsUrl directusUrl = ws) ∧
  (directusWsUrl = None ∨ directusWsUrl = Some "" →
     opt_or directusWsUrl directusUrl = directusUrl).
Proof.
  unfold wsUrl. split; [|split; [|split; [|split]]].
  - intros rest ->. by rewrite replace_http_prefix.
  - intros host ->. change ("https://" ++ host) with ("http" ++ ("s://" ++ host)).
    by rewrite replace_http_prefix.
  - intros Hno. unfold replace_http. by rewrite Hno.
  - intros ws -> Hws. by apply str_or_truthy.
  - by intros [-> | ->].
Qed.

Lemma wsUrl_scheme_witness :
  wsUrl None "https://cms.example.org" = "wss://cms.example.org/websocket" ∧
  wsUrl (Some "http://localhost:8055") "https://cms.example.org"
    = "ws://localhost:8055/websocket".
Proof.
  split.
  - exact (proj1 (proj2 (wsUrl_scheme None "https://cms.example.org"))
             "cms.example.org" eq_refl).
  - exact (proj1 (wsUrl_scheme (Some "http://localhost:8055") "https://cms.example.org")
             "://localhost:8055" eq_refl).
Defined.

(** ** The raw role *)

(** X19. [userRoleRaw] is [null] without a user and otherwise the user's value
    of the field [userRoles] starts from ([field], or [role] when that is
    empty or permissions are not configured), whether or not permissions are
    enabled; and when they are enabled and no transform is configured,
    [userRoles] is that raw value normalised and mapped. *)
Theorem userRoleRaw_feeds_userRoles (config : RuntimeConfig) (w : World) :
  (currentUser w = None → userRoleRaw config w = (Normal JsNull, w)) ∧
  (∀ u, currentUser w = Some u → config_permissions config = None →
     userRoleRaw config w = (Normal (user_get u "role"), w)) ∧
  (∀ u pc, currentUser w = Some u → config_permissions config = Some pc →
     userRoleRaw config w = (Normal (raw_role pc u), w) ∧
     (enabled pc = true → transform pc = None →
        userRoles config w
          = (Normal (apply_mapping (mapping pc) (normalize_roles (raw_role pc u))), w))).
Proof.
  unfold userRoleRaw. run. split; [|split].
  - by intros ->.
  - by intros u -> ->.
  - intros u pc Hu Hpc. rewrite Hu, Hpc. split; [done|].
    intros Hen Htr.
    by rewrite userRoles_run, Hu, Hpc, Hen, resolve_roles_run, apply_transform_run, Htr.
Qed.

Lemma userRoleRaw_feeds_userRoles_witness :
  userRoleRaw (config_with (permissions_on (Some sample_mapping) None))
    (signed_in (user_with_role (JsString "1")))
    = (Normal (JsString "1"), signed_in (user_with_role (JsString "1"))) ∧
  userRoles (config_with (permissions_on (Some sample_mapping) None))
    (signed_in (user_with_role (JsString "1")))
    = (Normal [RoleName "admin"], signed_in (user_with_role (JsString "1"))).
Proof.
  pose proof (proj2 (proj2 (userRoleRaw_feeds_userRoles
    (config_with (permissions_on (Some sample_mapping) None))
    (signed_in (user_with_role (JsString "1")))))
    (user_with_role (JsString "1")) (permissions_on (Some sample_mapping) None)
    eq_refl eq_refl) as [Hraw Hroles].
  split; [exact Hraw | exact (Hroles eq_refl eq_refl)].
Defined.

(** ** The realtime registry *)

Lemma registry_get_elem (id : string) (m : list (string * SubscriptionHandler))
    (h : SubscriptionHandler) :
  registry_get id m = Some h → (id, h) ∈ m.
Proof.
  induction m as [|[k v] m IH]; simpl; [done|].
  destruct (String.eqb k id) eqn:Hk.
  - apply String.eqb_eq in Hk as ->. intros [= ->]. apply list_elem_of_here.
  - intros Hget. apply list_elem_of_further. by apply IH.
Qed.

Lemma registry_get_none (id : string) (m : list (string * SubscriptionHandler)) :
  registry_get id m = None ↔ id ∉ m.*1.
Proof.
  induction m as [|[k v] m IH]; simpl.
  - split; [intros _; apply not_elem_of_nil | done].
  - rewrite not_elem_of_cons. destruct (String.eqb k id) eqn:Hk.
    + apply String.eqb_eq in Hk as ->. split; [done | by intros [? _]].
    + apply String.eqb_neq in Hk. rewrite IH. split; [by intros ? | by intros [_ ?]].
Qed.

Lemma registry_get_unique (id : string) (m : list (string * SubscriptionHandler))
    (h : SubscriptionHandler) :
  NoDup m.*1 → (id, h) ∈ m → registry_get id m = Some h.
Proof.
  induction m as [|[k v] m IH]; simpl; [by intros _ ?%elem_of_nil|].
  intros [Hk Hm]%NoDup_cons [[= -> ->] | Hin]%elem_of_cons.
  - by rewrite String.eqb_refl.
  - destruct (String.eqb k id) eqn:Hkid; [|by apply IH].
    apply String.eqb_eq in Hkid as ->. destruct Hk.
    by apply (list_elem_of_fmap_2 fst _ (id, h)).
Qed.

Lemma registry_same_key (m : list (string * SubscriptionHandler))
    (p q : string * SubscriptionHandler) :
  NoDup m.*1 → p ∈ m → q ∈ m → p.1 = q.1 → p = q.
Proof.
  intros Hm Hp Hq Hk. destruct p as [k h], q as [k' h']. simpl in Hk. subst k'.
  pose proof (registry_get_unique k m h Hm Hp) as H1.
  pose proof (registry_get_unique k m h' Hm Hq) as H2.
  congruence.
Qed.

Lemma registry_get_set (id : string) (h : SubscriptionHandler)
    (m : list (string * SubscriptionHandler)) :
  registry_get id (registry_set id h m) = Some h.
Proof.
  induction m as [|[k v] m IH]; simpl; [by rewrite String.eqb_refl|].
  destruct (String.eqb k id) eqn:Hk; simpl; by rewrite Hk.
Qed.

Lemma registry_set_fresh (id : string) (h : SubscriptionHandler)
    (m : list (string * SubscriptionHandler)) :
  registry_get id m = None → registry_set id h m = (m ++ [(id, h)])%list.
Proof.
  induction m as [|[k v] m IH]; simpl; [done|].
  destruct (String.eqb k id); [done|]. intros Hget. by rewrite IH.
Qed.

Lemma registry_get_app_other (id id' : string) (h : SubscriptionHandler)
    (m : list (string * SubscriptionHandler)) :
  id' ≠ id → registry_get id' (m ++ [(id, h)])%list = registry_get id' m.
Proof.
  intros Hne. induction m as [|[k v] m IH]; simpl.
  - assert (String.eqb id id' = false) as -> by (apply String.eqb_neq; congruence).
    done.
  - by destruct (String.eqb k id').
Qed.

Lemma registry_get_delete (id id' : string) (m : list (string * SubscriptionHandler)) :
  registry_get id' (registry_delete id m) =
  if decide (id' = id) then None else registry_get id' m.
Proof.
  unfold registry_delete. induction m as [|[k v] m IH]; simpl.
  - by destruct (decide (id' = id)).
  - rewrite filter_cons. simpl. destruct (decide (k ≠ id)) as [Hk|Hk]; simpl.
    + destruct (String.eqb k id') eqn:Hkid; [|done].
      apply String.eqb_eq in Hkid as <-. by rewrite decide_False.
    + apply dec_stable in Hk as ->. rewrite IH.
      destruct (decide (id' = id)) as [->|Hne]; [done|].
      assert (String.eqb id id' = false) as -> by (apply String.eqb_neq; congruence).
      done.
Qed.

Lemma filter_keep_all {A : Type} (P : A → Prop) `{!∀ x, Decision (P x)} (l : list A) :
  (∀ x, x ∈ l → P x) → filter P l = l.
Proof.
  induction l as [|a l IH]; [done|]. intros Hall.
  rewrite filter_cons_True by (apply Hall, list_elem_of_here).
  rewrite IH; [done|]. intros x Hx. by apply Hall, list_elem_of_further.
Qed.

Lemma filter_ext_elem {A : Type} (P Q : A → Prop)
    `{!∀ x, Decision (P x), !∀ x, Decision (Q x)} (l : list A) :
  (∀ x, x ∈ l → (P x ↔ Q x)) → filter P l = filter Q l.
Proof.
  induction l as [|a l IH]; [done|]. intros Hext.
  assert (Hl : filter P l = filter Q l).
  { apply IH. intros x Hx. by apply Hext, list_elem_of_further. }
  destruct (decide (P a)) as [Ha|Ha].
  - rewrite !filter_cons_True; [by rewrite Hl | | done].
    by apply (Hext a (list_elem_of_here _ _)).
  - rewrite !filter_cons_False; [done | | done].
    intros Hq. by apply Ha, (Hext a (list_elem_of_here _ _)).
Qed.

Lemma registry_filter_NoDup (P : string * SubscriptionHandler → Prop)
    `{!∀ x, Decision (P x)} (m : list (string * SubscriptionHandler)) :
  NoDup m.*1 → NoDup (filter P m).*1.
Proof.
  intros Hm. eapply sublist_NoDup; [exact Hm|].
  apply fmap_sublist, sublist_filter.
Qed.

(** The handlers of a filtered registry, when the filter looks at handlers only. *)
Lemma registry_filter_handlers (P : string * SubscriptionHandler → Prop)
    (Q : SubscriptionHandler → Prop)
    `{!∀ x, Decision (P x), !∀ x, Decision (Q x)} (m : list (string * SubscriptionHandler)) :
  (∀ p, p ∈ m → (P p ↔ Q p.2)) → (filter P m).*2 = filter Q m.*2.
Proof.
  induction m as [|p m IH]; [done|]. intros Hext. csimpl.
  assert (Hm : (filter P m).*2 = filter Q m.*2).
  { apply IH. intros x Hx. by apply Hext, list_elem_of_further. }
  destruct (decide (P p)) as [Hp|Hp].
  - rewrite filter_cons_True by done. csimpl. rewrite filter_cons_True; [by rewrite Hm|].
    by apply (Hext p (list_elem_of_here _ _)).
  - rewrite filter_cons_False by done. rewrite filter_cons_False; [done|].
    intros Hq. by apply Hp, (Hext p (list_elem_of_here _ _)).
Qed.

(** What [unsubscribe] leaves in the registry. *)
Lemma unsubscribe_subscriptions (id : string) (st : Realtime) :
  NoDup (subscriptions st).*1 →
  subscriptions (unsubscribe id st) =
  filter (λ p, p.1 ≠ id ∨ unsubscribe_throws p.2 = true) (subscriptions st).
Proof.
  intros Hm. unfold unsubscribe.
  destruct (registry_get id (subscriptions st)) as [h|] eqn:Hget.
  - apply registry_get_elem in Hget as Hin.
    destruct (handler_unsubscribe h) as [[]|e] eqn:Hh; simpl.
    + unfold registry_delete. apply filter_ext_elem. intros p Hp. split; [by left|].
      intros [Hne | Hthrow]; [done|]. intros Hk.
      assert (p = (id, h)) as -> by (by apply (registry_same_key (subscriptions st))).
      unfold unsubscribe_throws in Hthrow. simpl in Hthrow. by rewrite Hh in Hthrow.
    + symmetry. apply filter_keep_all. intros p Hp.
      destruct (decide (p.1 = id)) as [Hk|Hk]; [|by left]. right.
      assert (p = (id, h)) as -> by (by apply (registry_same_key (subscriptions st))).
      unfold unsubscribe_throws. simpl. by rewrite Hh.
  - symmetry. apply filter_keep_all. intros p Hp. left. intros Hk.
    apply registry_get_none in Hget. apply Hget. rewrite <- Hk.
    by apply list_elem_of_fmap_2.
Qed.

(** What a run of [unsubscribe] over a list of ids leaves in the registry. *)
Lemma unsubscribe_each_subscriptions (ids : list string) (st : Realtime) :
  NoDup (subscriptions st).*1 →
  subscriptions (unsubscribe_each ids st) =
  filter (λ p, p.1 ∉ ids ∨ unsubscribe_throws p.2 = true) (subscriptions st).
Proof.
  revert st. induction ids as [|id ids IH]; intros st Hm.
  - simpl. symmetry. apply filter_keep_all. intros p _. left. apply not_elem_of_nil.
  - change (unsubscribe_each (id :: ids) st) with (unsubscribe_each ids (unsubscribe id st)).
    rewrite IH by (rewrite unsubscribe_subscriptions by done; by apply registry_filter_NoDup).
    rewrite unsubscribe_subscriptions by done.
    rewrite list_filter_filter. apply list_filter_iff. intros p.
    rewrite not_elem_of_cons. tauto.
Qed.

Lemma unsubscribe_ok (id : string) (st : Realtime) :
  registry_ok st → registry_ok (unsubscribe id st).
Proof.
  intros (Hkeys & Huid & Hlocal & Hreg). unfold unsubscribe.
  destruct (registry_get id (subscriptions st)) as [h|] eqn:Hget; [|done].
  destruct (handler_unsubscribe h) as [[]|e]; [|done].
  split; [|split; [|split]]; simpl.
  - by apply registry_filter_NoDup.
  - intros k v [_ Hin]%list_elem_of_filter. by apply Huid.
  - by apply NoDup_filter.
  - intros id' [Hne Hin]%list_elem_of_filter.
    rewrite registry_get_delete, decide_False by done. by apply Hreg.
Qed.

Lemma unsubscribe_each_ok (ids : list string) (st : Realtime) :
  registry_ok st → registry_ok (unsubscribe_each ids st).
Proof.
  revert st. induction ids as [|id ids IH]; intros st Hok; [done|].
  change (unsubscribe_each (id :: ids) st) with (unsubscribe_each ids (unsubscribe id st)).
  by apply IH, unsubscribe_ok.
Qed.

Lemma subscribe_ok (client_subscribe : string → string → Completion (Completion unit))
    (generated : string) (options : SubscriptionOptions) (st : Realtime) :
  registry_ok st → registry_ok (subscribe client_subscribe generated options st).2.
Proof.
  intros (Hkeys & Huid & Hlocal & Hreg). unfold subscribe.
  set (id := opt_or (opt_uid options) generated).
  destruct (registry_get id (subscriptions st)) as [h|] eqn:Hget; [done|].
  destruct (client_subscribe (opt_collection options) id) as [unsub|e]; [|done].
  simpl. rewrite registry_set_fresh by done.
  apply registry_get_none in Hget as Hfresh.
  assert (Hold : ∀ id', id' ∈ localSubscriptions st → id' ≠ id).
  { intros id' Hin ->. destruct (Hreg id Hin) as (h & Hh & _). congruence. }
  split; [|split; [|split]]; simpl.
  - rewrite fmap_app. apply NoDup_app. split; [done|]. split; [|apply NoDup_singleton].
    intros k Hk [= ->]%list_elem_of_singleton. done.
  - intros k h [Hin | [= -> ->]%list_elem_of_singleton]%elem_of_app; [by apply Huid | done].
  - destruct (default false (opt_persistent options)); [done|]. unfold set_add.
    case_bool_decide; [done|]. apply NoDup_app. split; [done|].
    split; [|apply NoDup_singleton].
    intros k Hk ->%list_elem_of_singleton. done.
  - intros id' Hin.
    assert (Hcases : id' ∈ localSubscriptions st
                     ∨ (id' = id ∧ default false (opt_persistent options) = false)).
    { destruct (default false (opt_persistent options)); [by left|].
      unfold set_add in Hin. case_bool_decide; [by left|].
      apply elem_of_app in Hin as [? | ->%list_elem_of_singleton]; [by left | by right]. }
    destruct Hcases as [Hin' | [-> Hp]].
    + rewrite registry_get_app_other by (by apply Hold). by apply Hreg.
    + rewrite <- registry_set_fresh by (by apply registry_get_none).
      rewrite registry_get_set. by eexists.
Qed.

Lemma realtime_empty_ok : registry_ok realtime_empty.
Proof.
  split; [apply NoDup_nil_2|]. split; [by intros k h ?%elem_of_nil|].
  split; [apply NoDup_nil_2 | by intros id ?%elem_of_nil].
Qed.

Lemma one_feed_ok : registry_ok one_feed.
Proof. apply subscribe_ok, realtime_empty_ok. Qed.

Lemma registry_set_keys (id : string) (h : SubscriptionHandler)
    (m : list (string * SubscriptionHandler)) :
  (registry_set id h m).*1 =
  match registry_get id m with
  | Some _ => m.*1
  | None => (m.*1 ++ [id])%list
  end.
Proof.
  induction m as [|[k v] m IH]; simpl; [done|].
  destruct (String.eqb k id) eqn:Hk; [done|]. csimpl. rewrite IH.
  by destruct (registry_get id m).
Qed.

Lemma registry_set_elem (id : string) (h : SubscriptionHandler)
    (m : list (string * SubscriptionHandler)) (p : string * SubscriptionHandler) :
  p ∈ registry_set id h m → p = (id, h) ∨ p ∈ m.
Proof.
  induction m as [|[k v] m IH]; simpl.
  - intros ->%list_elem_of_singleton. by left.
  - destruct (String.eqb k id) eqn:Hk.
    + apply String.eqb_eq in Hk as ->.
      intros [-> | Hin]%elem_of_cons; [by left | right; by apply list_elem_of_further].
    + intros [-> | Hin]%elem_of_cons; [right; apply list_elem_of_here|].
      destruct (IH Hin) as [-> | Hm]; [by left | right; by apply list_elem_of_further].
Qed.

(** A write of a handler under its own [uid] keeps the registry keyed,
    whether the id is new or taken. *)
Lemma registry_set_keyed (id : string) (h : SubscriptionHandler)
    (m : list (string * SubscriptionHandler)) :
  uid h = id → registry_keyed m → registry_keyed (registry_set id h m).
Proof.
  intros Hh [Hkeys Huid]. split.
  - rewrite registry_set_keys.
    destruct (registry_get id m) eqn:Hget; [done|].
    apply registry_get_none in Hget.
    apply NoDup_app. split; [done|]. split; [|apply NoDup_singleton].
    by intros k Hk ->%list_elem_of_singleton.
  - intros k v [[= -> ->] | Hin]%registry_set_elem; [done | by apply Huid].
Qed.

Lemma subscribe_register_keyed (id : string) (options : SubscriptionOptions)
    (unsub : Completion unit) (st : Realtime) :
  registry_keyed (subscriptions st) →
  registry_keyed (subscriptions (subscribe_register id options unsub st).2).
Proof. intros Hm. simpl. by apply registry_set_keyed. Qed.

(** [subscribe], when nothing interrupts it, is its check, the SDK call, and
    then [subscribe_register]. *)
Lemma subscribe_steps (client_subscribe : string → string → Completion (Completion unit))
    (generated : string) (options : SubscriptionOptions) (st : Realtime) :
  subscribe client_subscribe generated options st =
  match registry_get (opt_or (opt_uid options) generated) (subscriptions st) with
  | Some existing => (Normal existing, st)
  | None =>
      match client_subscribe (opt_collection options) (opt_or (opt_uid options) generated) with
      | Normal unsub =>
          (Normal (subscribe_register (opt_or (opt_uid options) generated) options unsub st).1,
           (subscribe_register (opt_or (opt_uid options) generated) options unsub st).2)
      | Throw e =>
          (Throw e,
           {| subscriptions := subscriptions st;
              localSubscriptions := localSubscriptions st;
              realtimeErrors :=
                (realtimeErrors st
                 ++ [String.append "[Directus Realtime] Error subscribing to "
                       (String.append (opt_collection options) ":")])%list |})
      end
  end.
Proof. reflexivity. Qed.

Lemma subscribe_keyed (client_subscribe : string → string → Completion (Completion unit))
    (generated : string) (options : SubscriptionOptions) (st : Realtime) :
  registry_keyed (subscriptions st) →
  registry_keyed (subscriptions (subscribe client_subscribe generated options st).2).
Proof.
  intros Hm. rewrite subscribe_steps.
  destruct (registry_get _ _); [done|].
  destruct (client_subscribe _ _); [by apply subscribe_register_keyed | done].
Qed.

Lemma unsubscribe_keyed (id : string) (st : Realtime) :
  registry_keyed (subscriptions st) → registry_keyed (subscriptions (unsubscribe id st)).
Proof.
  intros [Hkeys Huid]. rewrite unsubscribe_subscriptions by done. split.
  - by apply registry_filter_NoDup.
  - intros k v [_ Hin]%list_elem_of_filter. by apply Huid.
Qed.

Lemma unsubscribe_each_keyed (ids : list string) (st : Realtime) :
  registry_keyed (subscriptions st) →
  registry_keyed (subscriptions (unsubscribe_each ids st)).
Proof.
  revert st. induction ids as [|id ids IH]; intros st Hm; [done|].
  change (unsubscribe_each (id :: ids) st) with (unsubscribe_each ids (unsubscribe id st)).
  by apply IH, unsubscribe_keyed.
Qed.

(** X20. The registry stays keyed, whoever writes to it. It starts empty, and
    every operation, called from a component with any set of its own, leaves
    a registry in which no id occurs twice and every handler is filed under
    its own [uid]: [subscribe] as a whole, the write that ends a [subscribe]
    whose check was made on an earlier state (so also when two calls under
    one id overlap and both write), [unsubscribe], [unsubscribeCollection],
    [unsubscribeAll] and the unmount hook. *)
Theorem registry_stays_keyed :
  registry_keyed (subscriptions realtime_empty) ∧
  ∀ st, registry_keyed (subscriptions st) →
    (∀ client_subscribe generated options,
       registry_keyed (subscriptions (subscribe client_subscribe generated options st).2)) ∧
    (∀ id options unsub,
       registry_keyed (subscriptions (subscribe_register id options unsub st).2)) ∧
    (∀ id, registry_keyed (subscriptions (unsubscribe id st))) ∧
    (∀ c, registry_keyed (subscriptions (unsubscribeCollection c st))) ∧
    registry_keyed (subscriptions (unsubscribeAll st)) ∧
    registry_keyed (subscriptions (onUnmounted st)).
Proof.
  split; [split; [apply NoDup_nil_2 | by intros k h ?%elem_of_nil]|].
  intros st Hm. split; [|split; [|split; [|split; [|split]]]].
  - intros. by apply subscribe_keyed.
  - intros. by apply subscribe_register_keyed.
  - intros. by apply unsubscribe_keyed.
  - intros. by apply unsubscribe_each_keyed.
  - by apply unsubscribe_each_keyed.
  - by apply unsubscribe_each_keyed.
Qed.

Lemma registry_stays_keyed_witness :
  registry_keyed (subscriptions feed_taken_over) ∧
  registry_keyed (subscriptions
    (subscribe_register "feed" feed_kept_options (Normal tt)
       (subscribe_register "feed" feed_options (Normal tt) realtime_empty).2).2).
Proof.
  destruct registry_stays_keyed as [Hempty Hkept].
  pose proof (proj1 (Hkept realtime_empty Hempty) sdk_subscribing "r1" feed_options) as Hfeed.
  split.
  - pose proof (proj1 (proj2 (proj2 (Hkept
      {| subscriptions := subscriptions one_feed;
         localSubscriptions := [];
         realtimeErrors := realtimeErrors one_feed |} Hfeed))) "feed") as Hgone.
    exact (proj1 (Hkept
      {| subscriptions := subscriptions (elsewhere [] (unsubscribe "feed") one_feed).1;
         localSubscriptions := [];
         realtimeErrors := realtimeErrors (elsewhere [] (unsubscribe "feed") one_feed).1 |}
      Hgone) sdk_subscribing "r3" feed_kept_options).
  - exact (proj1 (proj2 (Hkept _
      (proj1 (proj2 (Hkept realtime_empty Hempty)) "feed" feed_options (Normal tt))))
      "feed" feed_kept_options (Normal tt)).
Defined.

(** X21. Subscribing twice under one id registers once. After a [subscribe]
    that returned a handler, any further [subscribe] that resolves to the
    same id returns that very handler and changes nothing, without asking
    the SDK again, even when it names another collection or asks for
    persistence. *)
Theorem subscribe_same_id_returns_handler
    (client_subscribe client_subscribe' : string → string → Completion (Completion unit))
    (generated generated' : string) (options options' : SubscriptionOptions)
    (st st1 : Realtime) (h : SubscriptionHandler) :
  subscribe client_subscribe generated options st = (Normal h, st1) →
  opt_or (opt_uid options') generated' = opt_or (opt_uid options) generated →
  subscribe client_subscribe' generated' options' st1 = (Normal h, st1) ∧
  hasSubscription (opt_or (opt_uid options) generated) st1 = true.
Proof.
  unfold subscribe, hasSubscription. intros Hfirst ->.
  set (id := opt_or (opt_uid options) generated) in *.
  destruct (registry_get id (subscriptions st)) as [h0|] eqn:Hget.
  - injection Hfirst as <- <-. rewrite Hget. split; [done|].
    apply bool_decide_eq_true. by eexists.
  - destruct (client_subscribe (opt_collection options) id) as [unsub|e]; [|done].
    injection Hfirst as <- <-. simpl. rewrite registry_get_set. split; [done|].
    apply bool_decide_eq_true. by eexists.
Qed.

Lemma subscribe_same_id_returns_handler_witness :
  ∃ h st1,
    subscribe sdk_subscribing "r1" feed_options realtime_empty = (Normal h, st1) ∧
    subscribe (λ _ _, Throw {| message := "offline" |}) "r2"
      {| opt_collection := "comments"; opt_uid := Some "feed"; opt_persistent := Some true |}
      st1 = (Normal h, st1) ∧
    collection h = "articles".
Proof.
  eexists _, _. split; [reflexivity|]. split; [|reflexivity].
  exact (proj1 (subscribe_same_id_returns_handler sdk_subscribing
    (λ _ _, Throw {| message := "offline" |}) "r1" "r2" feed_options
    {| opt_collection := "comments"; opt_uid := Some "feed"; opt_persistent := Some true |}
    realtime_empty _ _ eq_refl eq_refl)).
Defined.

Lemma registry_handlers_by_uid (id : string) (st : Realtime) :
  registry_ok st →
  (registry_delete id (subscriptions st)).*2
  = filter (λ h, uid h ≠ id) (getActiveSubscriptions st).
Proof.
  intros (_ & Huid & _). unfold registry_delete, getActiveSubscriptions.
  apply registry_filter_handlers. intros [k h] Hp. simpl. by rewrite (Huid k h Hp).
Qed.

(** X22. [unsubscribe] removes one subscription and nothing else. On a
    well-shaped registry: an unknown id changes nothing; a handler whose
    [unsubscribe] throws stays registered and tracked, and one line is
    logged; otherwise the id is gone from the registry and from the
    component's set, every other id is registered and tracked exactly as
    before, and the active handlers are the former ones, in the same order,
    without that one. *)
Theorem unsubscribe_removes_one (id : string) (st : Realtime) :
  registry_ok st →
  (registry_get id (subscriptions st) = None → unsubscribe id st = st) ∧
  (∀ h, registry_get id (subscriptions st) = Some h → unsubscribe_throws h = true →
     subscriptions (unsubscribe id st) = subscriptions st ∧
     localSubscriptions (unsubscribe id st) = localSubscriptions st ∧
     length (realtimeErrors (unsubscribe id st)) = S (length (realtimeErrors st))) ∧
  (∀ h, registry_get id (subscriptions st) = Some h → unsubscribe_throws h = false →
     hasSubscription id (unsubscribe id st) = false ∧
     (id ∉ localSubscriptions (unsubscribe id st)) ∧
     (∀ id', id' ≠ id →
        registry_get id' (subscriptions (unsubscribe id st))
          = registry_get id' (subscriptions st) ∧
        (id' ∈ localSubscriptions (unsubscribe id st) ↔ id' ∈ localSubscriptions st)) ∧
     getActiveSubscriptions (unsubscribe id st)
       = filter (λ h', uid h' ≠ id) (getActiveSubscriptions st) ∧
     realtimeErrors (unsubscribe id st) = realtimeErrors st).
Proof.
  intros Hok. unfold unsubscribe, unsubscribe_throws. split; [|split].
  - by intros ->.
  - intros h -> Hthrow. destruct (handler_unsubscribe h); [done|]. simpl.
    split; [done|]. split; [done|]. rewrite length_app. simpl. lia.
  - intros h -> Hfine. destruct (handler_unsubscribe h) as [[]|]; [|done]. simpl.
    split; [|split; [|split; [|split]]].
    + unfold hasSubscription. simpl. rewrite registry_get_delete, decide_True by done.
      apply bool_decide_eq_false. by intros [? ?].
    + unfold set_delete. rewrite list_elem_of_filter. by intros [? _].
    + intros id' Hne. rewrite registry_get_delete, decide_False by done.
      split; [done|]. unfold set_delete. rewrite list_elem_of_filter. tauto.
    + by apply registry_handlers_by_uid.
    + done.
Qed.

Lemma unsubscribe_removes_one_witness :
  hasSubscription "feed" one_feed = true ∧
  hasSubscription "feed" (unsubscribe "feed" one_feed) = false ∧
  unsubscribe "chat" one_feed = one_feed.
Proof.
  pose proof one_feed_ok as Hok.
  destruct (unsubscribe_removes_one "feed" one_feed Hok) as (_ & _ & Hgone).
  destruct (unsubscribe_removes_one "chat" one_feed Hok) as (Hunknown & _).
  split; [reflexivity|]. split.
  - exact (proj1 (Hgone _ eq_refl eq_refl)).
  - exact (Hunknown eq_refl).
Defined.

Lemma removal_list_member (P : string * SubscriptionHandler → Prop)
    `{!∀ x, Decision (P x)} (m : list (string * SubscriptionHandler))
    (p : string * SubscriptionHandler) :
  NoDup m.*1 → p ∈ m → (p.1 ∈ (filter P m).*1 ↔ P p).
Proof.
  intros Hm Hp. rewrite list_elem_of_fmap. split.
  - intros (q & Hk & [HP Hq]%list_elem_of_filter).
    by rewrite (registry_same_key m p q Hm Hp Hq Hk).
  - intros HP. exists p. split; [done|]. by apply list_elem_of_filter.
Qed.

(** X23. [unsubscribeAll] and [unsubscribeCollection] spare persistent
    subscriptions. On a well-shaped registry, after [unsubscribeAll] the
    active handlers are, in their former order, exactly the persistent ones
    and those whose [unsubscribe] threw; after [unsubscribeCollection(c)]
    they are the handlers of other collections, the persistent ones, and
    those whose [unsubscribe] threw. *)
Theorem bulk_unsubscribe_spares_persistent (st : Realtime) :
  registry_ok st →
  getActiveSubscriptions (unsubscribeAll st)
    = filter (λ h, persistent h = true ∨ unsubscribe_throws h = true)
        (getActiveSubscriptions st) ∧
  ∀ c, getActiveSubscriptions (unsubscribeCollection c st)
       = filter (λ h, collection h ≠ c ∨ persistent h = true ∨ unsubscribe_throws h = true)
           (getActiveSubscriptions st).
Proof.
  intros (Hkeys & _). unfold unsubscribeAll, unsubscribeCollection, getActiveSubscriptions.
  split; [|intros c]; rewrite unsubscribe_each_subscriptions by done.
  - apply registry_filter_handlers. intros p Hp.
    rewrite (removal_list_member _ _ p Hkeys Hp).
    destruct (persistent p.2); intuition congruence.
  - apply registry_filter_handlers. intros p Hp.
    rewrite (removal_list_member _ _ p Hkeys Hp).
    destruct (persistent p.2), (decide (collection p.2 = c)); intuition congruence.
Qed.

Lemma bulk_unsubscribe_spares_persistent_witness :
  getActiveSubscriptions (unsubscribeAll one_feed) = [] ∧
  length (getActiveSubscriptions (unsubscribeCollection "comments" one_feed)) = 1.
Proof.
  pose proof one_feed_ok as Hok.
  destruct (bulk_unsubscribe_spares_persistent one_feed Hok) as [Hall Hcoll].
  split; [by rewrite Hall | by rewrite Hcoll].
Defined.

(** X24. Unmounting cancels what the component's set names, whatever is
    registered under those ids by then. For every registry and every set,
    after the [onUnmounted] hook the active handlers are, in their former
    order, those whose id the component does not track and those whose
    [unsubscribe] threw: a handler under an untracked id always stays, and a
    handler under a tracked id goes whenever its [unsubscribe] completes,
    persistent or not. The component's set is filled by its own [subscribe]
    calls only, but the registry under it is shared: when another component
    has unsubscribed a tracked id and subscribed to it again as persistent,
    the unmount cancels that persistent subscription. *)
Theorem unmount_cancels_tracked_ids (st : Realtime) :
  registry_keyed (subscriptions st) →
  getActiveSubscriptions (onUnmounted st)
    = filter (λ h, uid h ∉ localSubscriptions st ∨ unsubscribe_throws h = true)
        (getActiveSubscriptions st) ∧
  (∀ h, h ∈ getActiveSubscriptions st → uid h ∉ localSubscriptions st →
        h ∈ getActiveSubscriptions (onUnmounted st)) ∧
  (∀ h, h ∈ getActiveSubscriptions st → uid h ∈ localSubscriptions st →
        unsubscribe_throws h = false → h ∉ getActiveSubscriptions (onUnmounted st)).
Proof.
  intros [Hkeys Huid].
  assert (Hactive : getActiveSubscriptions (onUnmounted st)
    = filter (λ h, uid h ∉ localSubscriptions st ∨ unsubscribe_throws h = true)
        (getActiveSubscriptions st)).
  { unfold onUnmounted, getActiveSubscriptions.
    rewrite unsubscribe_each_subscriptions by done.
    apply registry_filter_handlers. intros [k h] Hp. simpl. by rewrite (Huid k h Hp). }
  split; [done|]. rewrite Hactive. split.
  - intros h Hin Hlocal. apply list_elem_of_filter. split; [by left | done].
  - intros h Hin Hlocal Hfine [[Hno | Hthrow] _]%list_elem_of_filter; [done | congruence].
Qed.

Lemma unmount_cancels_tracked_ids_witness :
  (uid <$> getActiveSubscriptions feed_taken_over = ["feed"]
   ∧ persistent <$> getActiveSubscriptions feed_taken_over = [true]
   ∧ localSubscriptions feed_taken_over = ["feed"]) ∧
  getActiveSubscriptions (onUnmounted feed_taken_over) = [] ∧
  uid <$> getActiveSubscriptions
            (onUnmounted (subscribe sdk_subscribing "r2" alarm_options one_feed).2)
  = ["alarm"].
Proof.
  split; [by repeat split|]. split.
  - assert (Hm : registry_keyed (subscriptions feed_taken_over)).
    { split; [apply NoDup_singleton|].
      by intros k h [= -> ->]%list_elem_of_singleton. }
    by rewrite (proj1 (unmount_cancels_tracked_ids feed_taken_over Hm)).
  - assert (Hm : registry_keyed
                   (subscriptions (subscribe sdk_subscribing "r2" alarm_options one_feed).2)).
    { apply subscribe_keyed, subscribe_keyed.
      split; [apply NoDup_nil_2 | by intros k h ?%elem_of_nil]. }
    by rewrite (proj1 (unmount_cancels_tracked_ids _ Hm)).
Defined.

Lemma registry_delete_fresh (id : string) (m : list (string * SubscriptionHandler)) :
  registry_get id m = None → registry_delete id m = m.
Proof.
  intros Hget%registry_get_none. apply filter_keep_all. intros p Hp Hk.
  apply Hget. rewrite <- Hk. by apply list_elem_of_fmap_2.
Qed.

Lemma set_delete_absent (id : string) (l : list string) : id ∉ l → set_delete id l = l.
Proof. intros Hid. apply filter_keep_all. intros x Hx ->. done. Qed.

(** X25. [subscribe] under an id that is not yet registered registers exactly
    when the SDK accepts the subscription. If the SDK throws, the error is
    rethrown and neither the registry nor the component's set changes. If it
    answers, the new handler carries the id, the collection and the
    persistence asked for ([false] by default), it becomes the last active
    handler, every other id is as before, and the id is tracked by the
    component unless the subscription is persistent. *)
Theorem subscribe_registers_on_success_only
    (client_subscribe : string → string → Completion (Completion unit))
    (generated : string) (options : SubscriptionOptions) (st : Realtime) :
  registry_get (opt_or (opt_uid options) generated) (subscriptions st) = None →
  match client_subscribe (opt_collection options) (opt_or (opt_uid options) generated) with
  | Throw e =>
      ∃ st',
        subscribe client_subscribe generated options st = (Throw e, st') ∧
        subscriptions st' = subscriptions st ∧
        localSubscriptions st' = localSubscriptions st ∧
        hasSubscription (opt_or (opt_uid options) generated) st' = false
  | Normal unsub =>
      ∃ h st',
        subscribe client_subscribe generated options st = (Normal h, st') ∧
        uid h = opt_or (opt_uid options) generated ∧
        collection h = opt_collection options ∧
        handler_unsubscribe h = unsub ∧
        persistent h = default false (opt_persistent options) ∧
        getActiveSubscriptions st' = (getActiveSubscriptions st ++ [h])%list ∧
        hasSubscription (opt_or (opt_uid options) generated) st' = true ∧
        (opt_or (opt_uid options) generated ∈ localSubscriptions st'
         ↔ persistent h = false
           ∨ opt_or (opt_uid options) generated ∈ localSubscriptions st) ∧
        ∀ id', id' ≠ opt_or (opt_uid options) generated →
          registry_get id' (subscriptions st') = registry_get id' (subscriptions st)
  end.
Proof.
  intros Hget. unfold subscribe, hasSubscription, getActiveSubscriptions.
  set (id := opt_or (opt_uid options) generated) in *. rewrite Hget.
  destruct (client_subscribe (opt_collection options) id) as [unsub|e].
  - eexists _, _. split; [reflexivity|]. simpl.
    rewrite registry_set_fresh by done.
    split; [done|]. split; [done|]. split; [done|]. split; [done|].
    split; [by rewrite fmap_app|]. split; [|split].
    + rewrite <- registry_set_fresh by done. rewrite registry_get_set.
      apply bool_decide_eq_true. by eexists.
    + destruct (default false (opt_persistent options)).
      * split; [by right | by intros [? | ?]].
      * unfold set_add. case_bool_decide; [split; [by left | done]|].
        rewrite elem_of_app, list_elem_of_singleton. split; [by left | by right].
    + intros id' Hne. by apply registry_get_app_other.
  - eexists. split; [reflexivity|]. simpl. split; [done|]. split; [done|].
    rewrite Hget. apply bool_decide_eq_false. by intros [? ?].
Qed.

Lemma subscribe_registers_on_success_only_witness :
  ∃ h st',
    subscribe sdk_subscribing "r2" alarm_options one_feed = (Normal h, st') ∧
    uid <$> getActiveSubscriptions st' = ["feed"; "alarm"] ∧
    localSubscriptions st' = ["feed"].
Proof.
  destruct (subscribe_registers_on_success_only sdk_subscribing "r2" alarm_options
    one_feed eq_refl) as (h & st' & Hrun & _).
  exists h, st'. split; [exact Hrun|].
  injection Hrun as <- <-. split; reflexivity.
Defined.

(** X26. Subscribing and unsubscribing is a round trip. On a well-shaped
    registry, a [subscribe] under a new id that the SDK accepts, followed by
    an [unsubscribe] of that id whose cancel function does not throw, gives
    back exactly the state before: the same registry in the same order, the
    same set of the component, nothing logged. *)
Theorem subscribe_unsubscribe_round_trip
    (client_subscribe : string → string → Completion (Completion unit))
    (generated : string) (options : SubscriptionOptions) (st : Realtime) :
  registry_ok st →
  registry_get (opt_or (opt_uid options) generated) (subscriptions st) = None →
  client_subscribe (opt_collection options) (opt_or (opt_uid options) generated)
    = Normal (Normal tt) →
  unsubscribe (opt_or (opt_uid options) generated)
    (subscribe client_subscribe generated options st).2 = st.
Proof.
  intros (_ & _ & _ & Hreg) Hget Hsdk. unfold subscribe.
  set (id := opt_or (opt_uid options) generated) in *. rewrite Hget, Hsdk.
  unfold unsubscribe. simpl. rewrite registry_get_set. simpl.
  assert (Hlocal : id ∉ localSubscriptions st).
  { intros Hin. destruct (Hreg id Hin) as (h & Hh & _). congruence. }
  destruct st as [subs local errs]. simpl in *. f_equal.
  - rewrite registry_set_fresh by done. unfold registry_delete.
    rewrite filter_app, filter_cons_False, filter_nil, app_nil_r by (simpl; tauto).
    by apply registry_delete_fresh.
  - destruct (default false (opt_persistent options)); [by apply set_delete_absent|].
    unfold set_add. rewrite bool_decide_eq_false_2 by done.
    unfold set_delete. rewrite filter_app, filter_cons_False, filter_nil, app_nil_r by tauto.
    by apply set_delete_absent.
Qed.

Lemma subscribe_unsubscribe_round_trip_witness :
  unsubscribe "alarm" (subscribe sdk_subscribing "r2" alarm_options one_feed).2 = one_feed.
Proof.
  apply (subscribe_unsubscribe_round_trip sdk_subscribing "r2" alarm_options one_feed);
    [apply one_feed_ok | reflexivity..].
Defined.
